(** * gcp-oci-proxy: a shallow embedding of the two gateways

    The development follows the two Go programs of the repository:

    - the index-backed gateway ([main.go]): [extractNameAndSha], [initDB],
      [getCredential] and the two route handlers registered in [main];
    - the metadata gateway: [getAssetsHandler], [getImageMetadataReader]
      and [formatPath].

    Go strings are byte strings and are modelled by [string] (a list of
    8-bit [ascii]).  Go's [error] values are modelled by their message. *)

From Stdlib Require Import String Ascii List Bool Arith Lia.
Import ListNotations.

Local Open Scope string_scope.
Local Open Scope list_scope.

(** ** Errors and fallible results *)

Definition error := string.

Inductive result (A : Type) : Type :=
| Ok (a : A)
| Err (e : error).
Arguments Ok {A} a.
Arguments Err {A} e.

(** ** The part of package [strings] that the programs use *)

Module strings.

(** Number of occurrences of the byte [c] in [s]. *)
Fixpoint Count (c : ascii) (s : string) : nat :=
  match s with
  | EmptyString => 0
  | String x s' => (if Ascii.eqb x c then 1 else 0) + Count c s'
  end.

(** [strings.Split(s, sep)] for a separator of one byte, the only way the
    programs call it.  The result is never empty: a string without the
    separator is returned whole, as Go does. *)
Fixpoint Split (s : string) (sep : ascii) : list string :=
  match s with
  | EmptyString => [EmptyString]
  | String x s' =>
      if Ascii.eqb x sep then EmptyString :: Split s' sep
      else match Split s' sep with
           | hd :: tl => String x hd :: tl
           | [] => [String x EmptyString]
           end
  end.

(** [strings.HasPrefix(s, prefix)]. *)
Fixpoint HasPrefix (s prefix : string) {struct prefix} : bool :=
  match prefix, s with
  | EmptyString, _ => true
  | String _ _, EmptyString => false
  | String p prefix', String x s' => Ascii.eqb x p && HasPrefix s' prefix'
  end.

(** [strings.Contains(s, substr)]: some suffix of [s] starts with
    [substr]. *)
Fixpoint Contains (s substr : string) : bool :=
  HasPrefix s substr ||
  match s with
  | EmptyString => false
  | String _ s' => Contains s' substr
  end.

End strings.

(** ** [extractNameAndSha] (main.go) *)

Definition extractNameAndSha (input : string) : result (string * string) :=
  let parts := strings.Split input "/" in
  if (length parts <? 2)%nat then Err "invalid input format"
  else
    let namePart := nth (length parts - 1) parts EmptyString in
    let nameParts := strings.Split namePart "@" in
    if negb (length nameParts =? 2)%nat then Err "invalid name and SHA format"
    else Ok (nth 0 nameParts EmptyString, nth 1 nameParts EmptyString).

(** ** Data model (main.go) *)

Record Config : Type := {
  Project : string;
  Repository_ : string;
  Region : string;
  Port : string;
  Credential : string
}.

(** A [*string]: the address of a string variable. *)
Definition ptr := nat.

Record Asset : Type := {
  Name : string;
  SHA : string;
  RawName : string;
  URI : string;
  MediaType : string;
  Tags : list ptr
}.

Record Repository : Type := {
  Assets : list Asset
}.

(** The fields of [artifactregistrypb.DockerImage] that the programs read. *)
Module pb.
Record DockerImage : Type := {
  Name : string;
  Uri : string;
  Tags : list string;
  MediaType : string
}.
End pb.

(** ** String variables whose address is taken

    [initDB] stores [&tag] in the asset, so the string variables that the
    pointers denote are part of the program state.  A pointer obtained with
    [&] always denotes a live variable, therefore [load] is total. *)

Record Heap : Type := {
  cell : ptr -> string;
  next : ptr
}.

Definition emptyHeap : Heap := {| cell := fun _ => EmptyString; next := 0 |}.

Definition load (h : Heap) (p : ptr) : string := cell h p.

Definition store (h : Heap) (p : ptr) (v : string) : Heap :=
  {| cell := fun q => if (q =? p)%nat then v else cell h q; next := next h |}.

(** Declaring a variable that escapes: a fresh address holding [v]. *)
Definition new (h : Heap) (v : string) : ptr * Heap :=
  (next h,
   {| cell := fun q => if (q =? next h)%nat then v else cell h q;
      next := S (next h) |}).

(** The mutable state of the index-backed gateway: the string variables and
    the package-level [RepositoryDB] ([var RepositoryDB = &Repository{}]).
    Each [*Asset] is created by [initDB], appended once and never written
    again, so the slice [Assets] is modelled by the list of its records. *)
Record Memory : Type := {
  heap : Heap;
  RepositoryDB : Repository
}.

Definition initialMemory : Memory :=
  {| heap := emptyHeap; RepositoryDB := {| Assets := [] |} |}.

(** ** The loop variable of [for _, tag := range resp.Tags]

    The [go] directive of the module selects the meaning of the loop:
    below 1.22 one variable [tag] serves the whole loop, from 1.22 on every
    iteration declares its own.  The model takes the choice as a
    parameter. *)
Inductive LoopVar : Type :=
| PerLoop
| PerIteration.

(** One variable for the whole loop: each iteration assigns it and appends
    its address. *)
Fixpoint appendTagsShared (tag : ptr) (tags : list string) (h : Heap)
    (acc : list ptr) : Heap * list ptr :=
  match tags with
  | [] => (h, acc)
  | t :: rest => appendTagsShared tag rest (store h tag t) (acc ++ [tag])
  end.

(** A variable per iteration: each iteration declares a new [tag] and
    appends its address. *)
Fixpoint appendTagsFresh (tags : list string) (h : Heap) (acc : list ptr)
    : Heap * list ptr :=
  match tags with
  | [] => (h, acc)
  | t :: rest => let (tag, h') := new h t in
                 appendTagsFresh rest h' (acc ++ [tag])
  end.

(** [for _, tag := range resp.Tags { asset.Tags = append(asset.Tags, &tag) }]
    starting from [asset.Tags = nil]. *)
Definition appendTags (lv : LoopVar) (tags : list string) (h : Heap)
    : Heap * list ptr :=
  match lv with
  | PerLoop => let (tag, h') := new h EmptyString in
               appendTagsShared tag tags h' []
  | PerIteration => appendTagsFresh tags h []
  end.

(** ** [formatPath] and [initDB] (main.go) *)

Definition formatPath (config : Config) : result string :=
  Ok ("projects/" ++ Project config ++ "/locations/" ++ Region config
      ++ "/repositories/" ++ Repository_ config)%string.

(** What the successive calls of [it.Next()] return before [iterator.Done]:
    an image, or an error of the listing. *)
Definition DockerImageIterator := list (result pb.DockerImage).

(** [client.ListDockerImages(ctx, req)], by the [Parent] of the request. *)
Definition ArtifactRegistryClient := string -> DockerImageIterator.

(** The body of [for { resp, err := it.Next() ... }].  An exhausted
    iterator answers [iterator.Done], which leaves the loop. *)
Fixpoint initDBLoop (lv : LoopVar) (it : DockerImageIterator) (m : Memory)
    : option error * Memory :=
  match it with
  | [] => (None, m)
  | Err err :: _ => (Some err, m)
  | Ok resp :: it' =>
      match extractNameAndSha (pb.Name resp) with
      | Err err => (Some err, m)
      | Ok (name, sha) =>
          let (h, tags) := appendTags lv (pb.Tags resp) (heap m) in
          let asset := {| Name := name;
                          SHA := sha;
                          RawName := pb.Name resp;
                          URI := pb.Uri resp;
                          MediaType := pb.MediaType resp;
                          Tags := tags |} in
          initDBLoop lv it'
            {| heap := h;
               RepositoryDB :=
                 {| Assets := Assets (RepositoryDB m) ++ [asset] |} |}
      end
  end.

Definition initDB (lv : LoopVar) (config : Config)
    (client : ArtifactRegistryClient) (m : Memory) : option error * Memory :=
  match formatPath config with
  | Err err => (Some err, m)
  | Ok formattedPath => initDBLoop lv (client formattedPath) m
  end.

(** ** Reading the index *)

(** An asset with its tag pointers dereferenced. *)
Record AssetView : Type := {
  vName : string;
  vSHA : string;
  vRawName : string;
  vURI : string;
  vMediaType : string;
  vTags : list string
}.

Definition tagsOf (h : Heap) (a : Asset) : list string :=
  map (load h) (Tags a).

Definition view (h : Heap) (a : Asset) : AssetView :=
  {| vName := Name a; vSHA := SHA a; vRawName := RawName a; vURI := URI a;
     vMediaType := MediaType a; vTags := tagsOf h a |}.

(** The index as a reader sees it: the ordered sequence of assets. *)
Definition snapshot (m : Memory) : list AssetView :=
  map (view (heap m)) (Assets (RepositoryDB m)).

(** What reading the pointers of [asset.Tags] yields once the loop over the
    tags [tags] is over: the tags themselves when every iteration has its
    own variable, as many copies of the last one when one variable serves
    the loop. *)
Definition recordedTags (lv : LoopVar) (tags : list string) : list string :=
  match lv with
  | PerIteration => tags
  | PerLoop => repeat (last tags EmptyString) (length tags)
  end.

(** The asset that a listed image stands for: name and digest parsed from
    the resource name, the other fields copied, the tags as recorded. *)
Definition assetOfImage (lv : LoopVar) (img : pb.DockerImage)
    : option AssetView :=
  match extractNameAndSha (pb.Name img) with
  | Ok (name, sha) =>
      Some {| vName := name; vSHA := sha; vRawName := pb.Name img;
              vURI := pb.Uri img; vMediaType := pb.MediaType img;
              vTags := recordedTags lv (pb.Tags img) |}
  | Err _ => None
  end.

(** Every tag pointer of the index denotes a declared variable. *)
Definition wfMemory (m : Memory) : Prop :=
  Forall (fun a => Forall (fun p => p < next (heap m)) (Tags a))
         (Assets (RepositoryDB m)).

(** A listing entry on which the build stops with the error [e]: an error of
    the iterator, or an image whose resource name does not parse. *)
Definition failsWith (entry : result pb.DockerImage) (e : error) : Prop :=
  entry = Err e \/
  exists img, entry = Ok img /\ extractNameAndSha (pb.Name img) = Err e.

(** A view whose name and digest are the parse of its raw name. *)
Definition parsed (v : AssetView) : Prop :=
  extractNameAndSha (vRawName v) = Ok (vName v, vSHA v).

(** ** The part of [net/http] that the handlers use *)

Module http.

Definition StatusOK : nat := 200.
Definition StatusNotFound : nat := 404.
Definition StatusInternalServerError : nat := 500.

Definition Header := list (string * string).

(** [Header.Set]: the value replaces the ones recorded under the key. *)
Definition Set_ (h : Header) (key value : string) : Header :=
  (key, value)
    :: filter (fun kv => negb (String.eqb (fst kv) key)) h.

(** A response under construction.  [wroteHeader] tells whether the
    status line went out; [sent] is the header map as it was then. *)
Record ResponseWriter : Type := {
  header : Header;
  wroteHeader : bool;
  status : nat;
  sent : Header;
  body : string
}.

Definition newResponseWriter : ResponseWriter :=
  {| header := []; wroteHeader := false; status := 0; sent := [];
     body := EmptyString |}.

Definition SetHeader (w : ResponseWriter) (key value : string)
    : ResponseWriter :=
  {| header := Set_ (header w) key value; wroteHeader := wroteHeader w;
     status := status w; sent := sent w; body := body w |}.

(** [w.WriteHeader(code)]; a second call is ignored by the server. *)
Definition WriteHeader (w : ResponseWriter) (code : nat) : ResponseWriter :=
  if wroteHeader w then w
  else {| header := header w; wroteHeader := true; status := code;
          sent := header w; body := body w |}.

(** [w.Write(data)]: the first write sends the status 200 when none was
    sent.  Writing to the response is taken to succeed. *)
Definition Write (w : ResponseWriter) (data : string) : ResponseWriter :=
  let w' := WriteHeader w StatusOK in
  {| header := header w'; wroteHeader := wroteHeader w';
     status := status w'; sent := sent w';
     body := (body w' ++ data)%string |}.

(** What the client receives once the handler has returned: the server
    sends the status 200 for a handler that sent none. *)
Record Response : Type := {
  StatusCode : nat;
  ResponseHeader : Header;
  Body : string
}.

(** The server writes a header value with every CR and LF replaced by a
    space ([headerNewlineToSpace]) and without leading and trailing white
    space ([textproto.TrimString]). *)
Definition isNewline (c : ascii) : bool :=
  Ascii.eqb c "010"%char || Ascii.eqb c "013"%char.

Fixpoint headerNewlineToSpace (v : string) : string :=
  match v with
  | EmptyString => EmptyString
  | String c v' =>
      String (if isNewline c then " "%char else c) (headerNewlineToSpace v')
  end.

Definition isASCIISpace (c : ascii) : bool :=
  Ascii.eqb c " "%char || Ascii.eqb c "009"%char
  || Ascii.eqb c "010"%char || Ascii.eqb c "013"%char.

Fixpoint trimLeft (s : string) : string :=
  match s with
  | EmptyString => EmptyString
  | String c s' => if isASCIISpace c then trimLeft s' else s
  end.

Fixpoint trimRight (s : string) : string :=
  match s with
  | EmptyString => EmptyString
  | String c s' =>
      match trimRight s' with
      | EmptyString => if isASCIISpace c then EmptyString
                       else String c EmptyString
      | r => String c r
      end
  end.

Definition TrimString (s : string) : string := trimRight (trimLeft s).

Definition wireValue (v : string) : string :=
  TrimString (headerNewlineToSpace v).

Definition finishRequest (w : ResponseWriter) : Response :=
  let w' := WriteHeader w StatusOK in
  {| StatusCode := status w';
     ResponseHeader := map (fun kv => (fst kv, wireValue (snd kv))) (sent w');
     Body := body w' |}.

End http.

(** [io.Copy(w, reader)] from a [bytes.Reader] or a [strings.Reader] over
    [data]: the reader's [WriteTo] writes the whole content in one call and
    writes nothing when there is none.  The error is the one of the write,
    [None] here. *)
Definition io_Copy (w : http.ResponseWriter) (data : string)
    : http.ResponseWriter * option error :=
  match data with
  | EmptyString => (w, None)
  | _ => (http.Write w data, None)
  end.

(** ** Processes: the outside world, the trace and termination *)

(** What a process does that the outside can observe, in order. *)
Inductive Event : Type :=
| EvLog (line : string)
| EvReadFile (path : string)
| EvLogin (uri user credential : string)
| EvPull (uri : string)
| EvNewClient
| EvGetDockerImage (name : string)
| EvClose.

Definition isBackendCall (e : Event) : bool :=
  match e with
  | EvLog _ => false
  | _ => true
  end.

Section Process.

(** The state of everything outside the process: files and registries. *)
Variable World : Type.

Record Proc : Type := {
  world : World;
  trace : list Event
}.

(** A step either returns or ends the process ([os.Exit]). *)
Inductive Outcome (A : Type) : Type :=
| Return (a : A) (p : Proc)
| Exit (code : nat) (p : Proc).
Arguments Return {A} a p.
Arguments Exit {A} code p.

Definition M (A : Type) : Type := Proc -> Outcome A.

Definition ret {A} (a : A) : M A := fun p => Return a p.

Definition bind {A B} (c : M A) (k : A -> M B) : M B :=
  fun p => match c p with
           | Return a p' => k a p'
           | Exit code p' => Exit code p'
           end.

Definition emit (e : Event) : M unit :=
  fun p => Return tt {| world := world p; trace := trace p ++ [e] |}.

(** A call to the outside: recorded in the trace, answered by the world. *)
Definition call {A} (e : Event) (f : World -> A * World) : M A :=
  fun p => let (a, w') := f (world p) in
           Return a {| world := w'; trace := trace p ++ [e] |}.

Definition log_Println (line : string) : M unit := emit (EvLog line).

(** [log.Fatal(err)]: prints the error, then [os.Exit(1)]. *)
Definition log_Fatal {A} (err : error) : M A :=
  fun p => Exit 1 {| world := world p; trace := trace p ++ [EvLog err] |}.

End Process.

Arguments Return {World A} a p.
Arguments Exit {World A} code p.
Arguments world {World} p.
Arguments trace {World} p.
Arguments Build_Proc {World} world trace.
Arguments ret {World A} a _.
Arguments bind {World A B} c k _.
Arguments emit {World} e _.
Arguments call {World A} e f _.
Arguments log_Println {World} line _.
Arguments log_Fatal {World A} err _.

Notation "x <- c ;; k" := (bind c (fun x => k))
  (at level 61, c at next level, right associativity).
Notation "c ;;; k" := (bind c (fun _ => k))
  (at level 61, right associativity).

(** What the client of a request sees: the response, or nothing when the
    process ended while serving it. *)
Definition clientSees {World} (o : Outcome World http.ResponseWriter)
    : option http.Response :=
  match o with
  | Return w _ => Some (http.finishRequest w)
  | Exit _ _ => None
  end.

Definition exited {World A} (o : Outcome World A) : bool :=
  match o with
  | Return _ _ => false
  | Exit _ _ => true
  end.

Definition finalProc {World A} (o : Outcome World A) : Proc World :=
  match o with
  | Return _ p => p
  | Exit _ p => p
  end.

(** ** The index-backed gateway (main.go) *)

Module registry.
(** The fields of [chart.Metadata] that the handlers read. *)
Record Metadata : Type := {
  Name : string;
  Version : string
}.

(** The fields of the result of [client.Pull] that the handlers read:
    [result.Chart.Meta], a pointer that is nil when the chart has no
    metadata, and [result.Chart.Data]. *)
Record PullResult : Type := {
  ChartMeta : option Metadata;
  ChartData : string
}.
End registry.

Section Gateway.

Variable World : Type.

(** The credential file, the registry behind [registry.Client], and what
    the router does with a handler that panics. *)
Record Backend : Type := {
  (** [os.Open] followed by [io.ReadAll] *)
  ReadFile : string -> World -> result string * World;
  (** [client.Login(uri, registry.LoginOptBasicAuth(user, credential))] *)
  Login : string -> string -> string -> World -> option error * World;
  (** [client.Pull(uri)] *)
  Pull : string -> World -> result registry.PullResult * World;
  (** [middleware.Recoverer], which [defaultRouter] installs: what it does
      to the response once it has recovered the panic of a handler *)
  Recoverer : http.ResponseWriter -> http.ResponseWriter
}.

Variable backend : Backend.
Variable config : Config.

Definition getCredential : M World (result (string * string)) :=
  credentialBytes <- call (EvReadFile (Credential config))
                          (ReadFile backend (Credential config)) ;;
  match credentialBytes with
  | Err err => ret (Err err)
  | Ok bytes => ret (Ok ("_json_key", bytes))
  end.

Definition contentDisposition (meta : registry.Metadata) : string :=
  ("attachment; filename=" ++ registry.Name meta ++ "-"
     ++ registry.Version meta ++ ".tgz")%string.

(** A handler that reads [result.Chart.Meta.Name] with [Meta] nil panics
    before it touches the response; the recovery middleware logs the panic
    and answers in its place. *)
Definition nilMetaPanic (w : http.ResponseWriter)
    : M World http.ResponseWriter :=
  log_Println
    "panic: runtime error: invalid memory address or nil pointer dereference"
  ;;; ret (Recoverer backend w).

(** The body of the [if] of the digest route: lines 230-249. *)
Definition serveDigest (asset : Asset) (w : http.ResponseWriter)
    : M World http.ResponseWriter :=
  cred <- getCredential ;;
  match cred with
  | Err err => log_Fatal err
  | Ok (user, credential) =>
      err <- call (EvLogin (URI asset) user credential)
                  (Login backend (URI asset) user credential) ;;
      match err with
      | Some err => log_Fatal err
      | None =>
          pulled <- call (EvPull (URI asset)) (Pull backend (URI asset)) ;;
          match pulled with
          | Err err => log_Fatal err
          | Ok result =>
              match registry.ChartMeta result with
              | None => nilMetaPanic w
              | Some meta =>
                  let w := http.SetHeader w "Content-Disposition"
                             (contentDisposition meta) in
                  let w := http.WriteHeader w http.StatusOK in
                  let w := fst (io_Copy w (registry.ChartData result)) in
                  ret w
              end
          end
      end
  end.

(** [for _, asset := range RepositoryDB.Assets] of the digest route. *)
Fixpoint digestLoop (assetName assetSHA : string) (assets : list Asset)
    (w : http.ResponseWriter) : M World http.ResponseWriter :=
  match assets with
  | [] => ret w
  | asset :: rest =>
      if String.eqb (Name asset) assetName
         && String.eqb (SHA asset) assetSHA
      then serveDigest asset w
      else digestLoop assetName assetSHA rest w
  end.

(** The handler of [/{assetName}@{assetSHA}], by its two URL parameters. *)
Definition digestHandler (m : Memory) (assetName assetSHA : string)
    (w : http.ResponseWriter) : M World http.ResponseWriter :=
  log_Println (assetName ++ " " ++ assetSHA)%string ;;;
  digestLoop assetName assetSHA (Assets (RepositoryDB m)) w.

(** The body of the innermost [if] of the tag route: lines 262-280.  No
    status is written here; the first write sends it. *)
Definition serveTag (asset : Asset) (w : http.ResponseWriter)
    : M World http.ResponseWriter :=
  cred <- getCredential ;;
  match cred with
  | Err err => log_Fatal err
  | Ok (user, credential) =>
      err <- call (EvLogin (URI asset) user credential)
                  (Login backend (URI asset) user credential) ;;
      match err with
      | Some err => log_Fatal err
      | None =>
          pulled <- call (EvPull (URI asset)) (Pull backend (URI asset)) ;;
          match pulled with
          | Err err => log_Fatal err
          | Ok result =>
              match registry.ChartMeta result with
              | None => nilMetaPanic w
              | Some meta =>
                  let w := http.SetHeader w "Content-Disposition"
                             (contentDisposition meta) in
                  let w := fst (io_Copy w (registry.ChartData result)) in
                  ret w
              end
          end
      end
  end.

(** [for _, tag := range asset.Tags]; [continue] is the rest of the outer loop. *)
Fixpoint tagInnerLoop (h : Heap) (assetTag : string) (asset : Asset)
    (tags : list ptr) (w : http.ResponseWriter)
    (continue : M World http.ResponseWriter) : M World http.ResponseWriter :=
  match tags with
  | [] => continue
  | tag :: rest =>
      if String.eqb (load h tag) assetTag
      then serveTag asset w
      else tagInnerLoop h assetTag asset rest w continue
  end.

(** [for _, asset := range RepositoryDB.Assets] of the tag route. *)
Fixpoint tagLoop (h : Heap) (assetName assetTag : string)
    (assets : list Asset) (w : http.ResponseWriter)
    : M World http.ResponseWriter :=
  match assets with
  | [] => ret w
  | asset :: rest =>
      if String.eqb (Name asset) assetName
      then tagInnerLoop h assetTag asset (Tags asset) w
             (tagLoop h assetName assetTag rest w)
      else tagLoop h assetName assetTag rest w
  end.

(** The handler of [/{assetName}:{assetTag}], by its two URL parameters. *)
Definition tagHandler (m : Memory) (assetName assetTag : string)
    (w : http.ResponseWriter) : M World http.ResponseWriter :=
  tagLoop (heap m) assetName assetTag (Assets (RepositoryDB m)) w.

End Gateway.

Arguments ReadFile {World} b _ _.
Arguments Login {World} b _ _ _ _.
Arguments Pull {World} b _ _.
Arguments Recoverer {World} b _.

(** ** The asset that a request resolves to *)

Definition matchesDigest (assetName assetSHA : string) (a : Asset) : bool :=
  String.eqb (Name a) assetName && String.eqb (SHA a) assetSHA.

Definition matchesTag (h : Heap) (assetName assetTag : string) (a : Asset)
    : bool :=
  String.eqb (Name a) assetName
  && existsb (fun tag => String.eqb (load h tag) assetTag) (Tags a).

(** The asset served by the digest route, if any. *)
Definition lookupByDigest (m : Memory) (assetName assetSHA : string)
    : option Asset :=
  find (matchesDigest assetName assetSHA) (Assets (RepositoryDB m)).

(** The asset served by the tag route, if any. *)
Definition lookupByTag (m : Memory) (assetName assetTag : string)
    : option Asset :=
  find (matchesTag (heap m) assetName assetTag) (Assets (RepositoryDB m)).

(** [a] is the first element of [l] that satisfies [f]. *)
Definition firstThat {A} (f : A -> bool) (l : list A) (a : A) : Prop :=
  exists before after,
    l = before ++ a :: after /\ f a = true /\
    forall b, In b before -> f b = false.

(** ** The metadata gateway *)

Module metadata.
Section Metadata.

Variable World : Type.

Record Backend : Type := {
  (** [os.Getenv] *)
  Getenv : string -> string;
  (** [artifactregistry.NewClient(ctx)] *)
  NewClient : World -> option error * World;
  (** [c.GetDockerImage(ctx, req)], by the [Name] of the request *)
  GetDockerImage : string -> World -> result pb.DockerImage * World;
  (** [c.Close()] *)
  Close : World -> unit * World;
  (** [json.Marshal(resp)] *)
  Marshal : pb.DockerImage -> result string
}.

Variable backend : Backend.

(** [path[1:]] *)
Definition dropFirst (s : string) : string :=
  match s with
  | EmptyString => EmptyString
  | String _ s' => s'
  end.

Definition formatPath (path : string) : result string :=
  let project := Getenv backend "PROJECT" in
  if String.eqb project EmptyString then Err "missing project"
  else
    let repository := Getenv backend "REPOSITORY" in
    if String.eqb repository EmptyString then Err "missing repository"
    else
      let region := Getenv backend "REGION" in
      let region := if String.eqb region EmptyString then "us-central1"
                    else region in
      let path := if strings.HasPrefix path "/" then dropFirst path
                  else path in
      Ok ("projects/" ++ project ++ "/locations/" ++ region
          ++ "/repositories/" ++ repository ++ "/dockerImages/"
          ++ path)%string.

(** The reader is modelled by the content it yields.  [defer c.Close()]
    runs on every way out once the client exists. *)
Definition getImageMetadataReader (path : string)
    : M World (result string) :=
  if String.eqb path EmptyString then ret (Err "missing path")
  else
    let path := if negb (strings.HasPrefix path "/")
                then ("/" ++ path)%string else path in
    err <- call EvNewClient (NewClient backend) ;;
    match err with
    | Some err => ret (Err err)
    | None =>
        match formatPath path with
        | Err err => call EvClose (Close backend) ;;; ret (Err err)
        | Ok formattedPath =>
            log_Println ("formattedPath: " ++ formattedPath)%string ;;;
            resp <- call (EvGetDockerImage formattedPath)
                         (GetDockerImage backend formattedPath) ;;
            match resp with
            | Err err => call EvClose (Close backend) ;;; ret (Err err)
            | Ok resp =>
                match Marshal backend resp with
                | Err err => call EvClose (Close backend) ;;; ret (Err err)
                | Ok body => call EvClose (Close backend) ;;; ret (Ok body)
                end
            end
        end
    end.

(** The handler of [/{asset}], by its URL parameter. *)
Definition getAssetsHandler (path : string) (w : http.ResponseWriter)
    : M World http.ResponseWriter :=
  if strings.Contains path ".ico" then
    let w := http.WriteHeader w http.StatusNotFound in
    let w := http.Write w "404 Not Found
" in
    ret w
  else
    reader <- getImageMetadataReader path ;;
    match reader with
    | Err err =>
        let w := http.WriteHeader w http.StatusInternalServerError in
        let w := http.Write w err in
        ret w
    | Ok content =>
        match io_Copy w content with
        | (w, Some err) =>
            let w := http.WriteHeader w http.StatusInternalServerError in
            let w := http.Write w err in
            ret w
        | (w, None) => ret w
        end
    end.

(** [getAuths]: the entries of [AUTHS], separated by commas. *)
Definition getAuths : result (list string) :=
  let auths := Getenv backend "AUTHS" in
  if String.eqb auths EmptyString then Err "missing auths"
  else Ok (strings.Split auths ",").

(** [for _, auth := range auths { if input == auth { return true } }]. *)
Fixpoint authLoop (input : string) (auths : list string) : bool :=
  match auths with
  | [] => false
  | auth :: rest =>
      if String.eqb input auth then true else authLoop input rest
  end.

Definition isRequestAuthorized (input : string) : M World bool :=
  match getAuths with
  | Err err => log_Println err ;;; ret false
  | Ok auths => ret (authLoop input auths)
  end.

End Metadata.
End metadata.

Arguments metadata.getAssetsHandler {World} backend path w _.
Arguments metadata.getImageMetadataReader {World} backend path _.
Arguments metadata.isRequestAuthorized {World} backend input _.

(** [matchesTag] on the view of an asset. *)
Definition matchesTagView (assetName assetTag : string) (v : AssetView)
    : bool :=
  String.eqb (vName v) assetName
  && existsb (fun tag => String.eqb tag assetTag) (vTags v).

(** The calls of a request are in order when, [found] being the asset that
    the request resolves to and [w0] the outside world at its start: a
    request that resolves to nothing calls nothing; the only file read is
    the credential file; a login goes to the registry of the asset, with
    the user [_json_key] and the content of the credential file; and a pull
    goes to the registry of the asset, after a login that succeeded. *)
Definition orderlyCalls {World} (backend : Backend World) (config : Config)
    (found : option Asset) (w0 : World) (evs : list Event) : Prop :=
  (found = None -> Forall (fun e => isBackendCall e = false) evs) /\
  (forall path, In (EvReadFile path) evs ->
                path = Credential config /\ found <> None) /\
  (forall u user c,
      In (EvLogin u user c) evs ->
      exists a w1,
        found = Some a /\ u = URI a /\ user = "_json_key" /\
        ReadFile backend (Credential config) w0 = (Ok c, w1)) /\
  (forall u,
      In (EvPull u) evs ->
      exists a bytes w1 w2,
        found = Some a /\ u = URI a /\
        ReadFile backend (Credential config) w0 = (Ok bytes, w1) /\
        Login backend (URI a) "_json_key" bytes w1 = (None, w2)).

(** ** What runs once the index is built

    The operations of the process that run with the memory: a further build
    and the two routes.  The handlers of the routes hold no assignment to
    [RepositoryDB], to a field of an asset or through a tag pointer, and so
    leave the memory as it is; a build leaves the memory that [initDB]
    returns. *)
Inductive Operation : Type :=
| OpBuild (config : Config) (client : ArtifactRegistryClient)
| OpDigest (assetName assetSHA : string)
| OpTag (assetName assetTag : string).

Definition memoryAfter (lv : LoopVar) (op : Operation) (m : Memory)
    : Memory :=
  match op with
  | OpBuild config client => snd (initDB lv config client m)
  | OpDigest _ _ => m
  | OpTag _ _ => m
  end.

Fixpoint memoryAfterAll (lv : LoopVar) (ops : list Operation) (m : Memory)
    : Memory :=
  match ops with
  | [] => m
  | op :: rest => memoryAfterAll lv rest (memoryAfter lv op m)
  end.

(** ** Start-up of the index-backed gateway (main.go) *)

(** [newConfig], by what [os.Getenv] answers. *)
Definition newConfig (getenv : string -> string) : result Config :=
  let project := getenv "PROJECT" in
  if String.eqb project EmptyString then Err "missing project"
  else
    let repository := getenv "REPOSITORY" in
    if String.eqb repository EmptyString then Err "missing repository"
    else
      let region := getenv "REGION" in
      let region := if String.eqb region EmptyString then "us-central1"
                    else region in
      let port := getenv "PORT" in
      let port := if String.eqb port EmptyString then ":8080" else port in
      let credential := getenv "GOOGLE_APPLICATION_CREDENTIALS" in
      if String.eqb credential EmptyString then Err "missing credential"
      else Ok {| Project := project; Repository_ := repository;
                 Region := region; Port := port;
                 Credential := credential |}.

(** The fields of [http.Server] that [newServer] sets, the router apart;
    the read timeout is in seconds. *)
Record Server : Type := {
  Addr : string;
  ReadTimeout : nat
}.

Definition newServer (getenv : string -> string) : Server :=
  let listen := getenv "PORT" in
  let listen := if String.eqb listen EmptyString then ":8080" else listen in
  {| Addr := listen; ReadTimeout := 5 |}.

Section Startup.

Variable World : Type.

(** What [main] obtains from its surroundings before it serves. *)
Record Platform : Type := {
  (** [os.Getenv] *)
  Getenv : string -> string;
  (** [artifactregistry.NewClient(ctx)] *)
  NewArtifactRegistryClient :
    World -> result ArtifactRegistryClient * World;
  (** [registry.NewClient(registry.ClientOptDebug(true))] *)
  NewRegistryClient : result (Backend World)
}.

(** [main] from its first line to the creation of the router (lines
    199-223): what the two routes are then registered with.  [log.Fatal]
    leaves through [os.Exit], so the deferred [c.Close()] does not run. *)
Definition mainInit (lv : LoopVar) (platform : Platform) (m : Memory)
    : M World (Config * Backend World * Memory) :=
  match newConfig (Getenv platform) with
  | Err err => log_Fatal err
  | Ok config =>
      c <- call EvNewClient (NewArtifactRegistryClient platform) ;;
      match c with
      | Err err => log_Fatal err
      | Ok c =>
          match initDB lv config c m with
          | (Some err, _) =>
              log_Fatal ("failed to init db. error: " ++ err)%string
          | (None, m') =>
              match NewRegistryClient platform with
              | Err err => log_Fatal err
              | Ok client => ret (config, client, m')
              end
          end
      end
  end.

End Startup.

Arguments Getenv {World} p _.
Arguments NewArtifactRegistryClient {World} p _.
Arguments NewRegistryClient {World} p.
Arguments mainInit {World} lv platform m _.

(** ** Concrete scenarios *)

Module Scenario.

Definition config : Config :=
  {| Project := "p"; Repository_ := "r"; Region := "us-central1";
     Port := ":8080"; Credential := "/secrets/key.json" |}.

(** The image of the running example: [a/b@sha256:1] with the tag [v1]. *)
Definition image : pb.DockerImage :=
  {| pb.Name := "a/b@sha256:1"; pb.Uri := "registry.example/a/b@sha256:1";
     pb.Tags := ["v1"]; pb.MediaType := "application/vnd.oci.image.manifest" |}.

(** The same name and digest, listed under another parent. *)
Definition twin : pb.DockerImage :=
  {| pb.Name := "c/b@sha256:1"; pb.Uri := "registry.example/c/b@sha256:1";
     pb.Tags := ["v2"]; pb.MediaType := "application/vnd.oci.image.manifest" |}.

(** An image with two tags. *)
Definition tagged : pb.DockerImage :=
  {| pb.Name := "a/d@sha256:2"; pb.Uri := "registry.example/a/d@sha256:2";
     pb.Tags := ["v1"; "latest"];
     pb.MediaType := "application/vnd.oci.image.manifest" |}.

(** A resource name without digest. *)
Definition nameless : pb.DockerImage :=
  {| pb.Name := "a/b"; pb.Uri := "registry.example/a/b";
     pb.Tags := []; pb.MediaType := "application/vnd.oci.image.manifest" |}.

Definition client : ArtifactRegistryClient := fun _ => [Ok image].
Definition clientTwins : ArtifactRegistryClient :=
  fun _ => [Ok image; Ok twin].
Definition clientTagged : ArtifactRegistryClient := fun _ => [Ok tagged].
Definition clientBroken : ArtifactRegistryClient :=
  fun _ => [Ok image; Ok tagged; Ok nameless; Ok twin].
Definition clientInterrupted : ArtifactRegistryClient :=
  fun _ => [Ok image; Err "rpc error: code = Unavailable"; Ok twin].

(** The index of the running example, as [main] builds it. *)
Definition memory : Memory :=
  snd (initDB PerIteration config client initialMemory).

Definition chart : registry.PullResult :=
  {| registry.ChartMeta :=
       Some {| registry.Name := "b"; registry.Version := "1.0.0" |};
     registry.ChartData := "chart-bytes" |}.

(** The recovery middleware answers a panic with the status 500. *)
Definition recoverer (w : http.ResponseWriter) : http.ResponseWriter :=
  http.WriteHeader w http.StatusInternalServerError.

(** A backend that answers every call. *)
Definition healthy : Backend unit :=
  {| ReadFile := fun _ w => (Ok "secret", w);
     Login := fun _ _ _ w => (None, w);
     Pull := fun _ w => (Ok chart, w);
     Recoverer := recoverer |}.

(** The credential file is missing. *)
Definition noCredential : Backend unit :=
  {| ReadFile := fun _ w => (Err "open /secrets/key.json: no such file", w);
     Login := fun _ _ _ w => (None, w);
     Pull := fun _ w => (Ok chart, w);
     Recoverer := recoverer |}.

(** The registry refuses the login. *)
Definition loginRefused : Backend unit :=
  {| ReadFile := fun _ w => (Ok "secret", w);
     Login := fun _ _ _ w => (Some "login: unauthorized", w);
     Pull := fun _ w => (Ok chart, w);
     Recoverer := recoverer |}.

(** The pull fails. *)
Definition pullFails : Backend unit :=
  {| ReadFile := fun _ w => (Ok "secret", w);
     Login := fun _ _ _ w => (None, w);
     Pull := fun _ w => (Err "pull: manifest unknown", w);
     Recoverer := recoverer |}.

Definition start : Proc unit := {| world := tt; trace := [] |}.

Definition environment (name : string) : string :=
  if String.eqb name "PROJECT" then "p"
  else if String.eqb name "REPOSITORY" then "r"
  else EmptyString.

(** A metadata backend whose registry is unreachable. *)
Definition unreachable : metadata.Backend unit :=
  {| metadata.Getenv := environment;
     metadata.NewClient := fun w => (None, w);
     metadata.GetDockerImage :=
       fun _ w => (Err "rpc error: code = Unavailable", w);
     metadata.Close := fun w => (tt, w);
     metadata.Marshal := fun img => Ok (pb.Name img) |}.

End Scenario.

(** ** Two assets of one name that share a tag *)

Module Shadow.

Definition other : pb.DockerImage :=
  {| pb.Name := "c/b@sha256:3"; pb.Uri := "registry.example/c/b@sha256:3";
     pb.Tags := ["v0"; "v1"];
     pb.MediaType := "application/vnd.oci.image.manifest" |}.

Definition client : ArtifactRegistryClient :=
  fun _ => [Ok Scenario.image; Ok other].

Definition memory : Memory :=
  snd (initDB PerIteration Scenario.config client initialMemory).

Definition first : Asset :=
  {| Name := "b"; SHA := "sha256:1"; RawName := "a/b@sha256:1";
     URI := "registry.example/a/b@sha256:1";
     MediaType := "application/vnd.oci.image.manifest"; Tags := [0] |}.

Definition second : Asset :=
  {| Name := "b"; SHA := "sha256:3"; RawName := "c/b@sha256:3";
     URI := "registry.example/c/b@sha256:3";
     MediaType := "application/vnd.oci.image.manifest"; Tags := [1; 2] |}.

(** A registry whose charts differ from one URI to the other. *)
Definition mirror : Backend unit :=
  {| ReadFile := fun _ w => (Ok "secret", w);
     Login := fun _ _ _ w => (None, w);
     Pull := fun uri w =>
               (Ok {| registry.ChartMeta :=
                        Some {| registry.Name := "b";
                                registry.Version := "1.0.0" |};
                      registry.ChartData := uri |}, w);
     Recoverer := Scenario.recoverer |}.

End Shadow.

(** ** A deployment *)

Module Deployment.

Definition environment (name : string) : string :=
  if String.eqb name "PROJECT" then "p"
  else if String.eqb name "REPOSITORY" then "r"
  else if String.eqb name "GOOGLE_APPLICATION_CREDENTIALS"
       then "/secrets/key.json"
  else if String.eqb name "AUTHS" then "alice:a1,bob:b2"
  else EmptyString.

Definition platform (client : ArtifactRegistryClient) : Platform unit :=
  {| Getenv := environment;
     NewArtifactRegistryClient := fun w => (Ok client, w);
     NewRegistryClient := Ok Scenario.healthy |}.

(** A metadata backend that answers with the image asked for. *)
Definition registry : metadata.Backend unit :=
  {| metadata.Getenv := environment;
     metadata.NewClient := fun w => (None, w);
     metadata.GetDockerImage :=
       fun name w => (Ok {| pb.Name := name; pb.Uri := "registry.example/b";
                            pb.Tags := ["v1"];
                            pb.MediaType := "application/json" |}, w);
     metadata.Close := fun w => (tt, w);
     metadata.Marshal := fun img => Ok (pb.Name img) |}.

End Deployment.

(** * Facts

    From here on the file holds the lemmas about the definitions above and
    the theorems that settle the claims. *)

(** ** [strings.Split] and [strings.Count] *)

Section SplitFacts.

Variable sep : ascii.

Lemma Split_nonempty (s : string) : strings.Split s sep <> [].
Proof.
  destruct s as [|x s]; simpl; [discriminate|].
  destruct (Ascii.eqb x sep); [discriminate|].
  destruct (strings.Split s sep); discriminate.
Qed.

Lemma Count_app (a b : string) :
  strings.Count sep (a ++ b) = strings.Count sep a + strings.Count sep b.
Proof.
  induction a as [|x a IH]; simpl; [reflexivity|].
  rewrite IH. lia.
Qed.

(** The number of pieces is one more than the number of separators. *)
Lemma Split_length (s : string) :
  length (strings.Split s sep) = S (strings.Count sep s).
Proof.
  induction s as [|x s IH]; simpl; [reflexivity|].
  destruct (Ascii.eqb x sep); simpl; [now rewrite IH|].
  destruct (strings.Split s sep) as [|hd tl]; simpl in *; lia.
Qed.

Lemma Split_nosep (s : string) :
  strings.Count sep s = 0 -> strings.Split s sep = [s].
Proof.
  induction s as [|x s IH]; simpl; [reflexivity|].
  destruct (Ascii.eqb x sep); simpl; [discriminate|].
  intros H. now rewrite (IH H).
Qed.

(** Splitting distributes over a separator in the middle. *)
Lemma Split_app_sep (a b : string) :
  strings.Split (a ++ String sep b) sep
  = strings.Split a sep ++ strings.Split b sep.
Proof.
  induction a as [|x a IH]; simpl.
  - now rewrite Ascii.eqb_refl.
  - destruct (Ascii.eqb x sep); [now rewrite IH|].
    rewrite IH.
    destruct (strings.Split a sep) as [|hd tl] eqn:E; [|reflexivity].
    now apply Split_nonempty in E.
Qed.

(** Every piece is free of the separator. *)
Lemma Split_pieces (s : string) :
  Forall (fun p => strings.Count sep p = 0) (strings.Split s sep).
Proof.
  induction s as [|x s IH]; simpl.
  - constructor; [reflexivity|constructor].
  - destruct (Ascii.eqb x sep) eqn:E.
    + constructor; [reflexivity|assumption].
    + destruct (strings.Split s sep) as [|hd tl].
      * constructor; [simpl; now rewrite E|constructor].
      * inversion IH; subst. constructor; [simpl; now rewrite E|assumption].
Qed.

(** A string with a separator decomposes around its last separator; the
    trailing piece is the last element of the split. *)
Lemma Split_last (s : string) :
  1 <= strings.Count sep s ->
  exists pre seg,
    s = (pre ++ String sep seg)%string /\ strings.Count sep seg = 0 /\
    strings.Split s sep = strings.Split pre sep ++ [seg].
Proof.
  induction s as [|x s IH]; simpl; [lia|].
  destruct (Ascii.eqb x sep) eqn:E.
  - apply Ascii.eqb_eq in E; subst x.
    destruct (strings.Count sep s) as [|n] eqn:C.
    + intros _. exists EmptyString, s. simpl.
      repeat split; [assumption|]. now rewrite (Split_nosep s C).
    + intros _. destruct IH as (pre & seg & -> & Hseg & Hsp); [lia|].
      exists (String sep pre), seg. simpl. rewrite Ascii.eqb_refl.
      repeat split; [assumption|]. now rewrite Hsp.
  - simpl. intros H. destruct (IH H) as (pre & seg & -> & Hseg & Hsp).
    exists (String x pre), seg. simpl. rewrite E.
    repeat split; [assumption|]. rewrite Hsp.
    destruct (strings.Split pre sep) as [|hd tl] eqn:P; [|reflexivity].
    now apply Split_nonempty in P.
Qed.

Lemma nth_last_app (l : list string) (x : string) :
  nth (length (l ++ [x]) - 1) (l ++ [x]) EmptyString = x.
Proof.
  rewrite length_app. simpl.
  replace (length l + 1 - 1) with (length l) by lia.
  rewrite app_nth2 by lia. now rewrite Nat.sub_diag.
Qed.

End SplitFacts.

(** ** [extractNameAndSha] *)

Lemma extract_no_slash (input : string) :
  strings.Count "/" input = 0 ->
  extractNameAndSha input = Err "invalid input format".
Proof.
  intros H. unfold extractNameAndSha.
  now rewrite (Split_nosep "/" input H).
Qed.

(** With a [/], only the segment after the last one matters. *)
Lemma extract_trailing (pre seg : string) :
  strings.Count "/" seg = 0 ->
  extractNameAndSha (pre ++ String "/" seg) =
  let nameParts := strings.Split seg "@" in
  if negb (length nameParts =? 2)%nat then Err "invalid name and SHA format"
  else Ok (nth 0 nameParts EmptyString, nth 1 nameParts EmptyString).
Proof.
  intros H. unfold extractNameAndSha.
  rewrite Split_app_sep, (Split_nosep "/" seg H), nth_last_app.
  rewrite length_app. simpl length.
  destruct (length (strings.Split pre "/") + 1 <? 2)%nat eqn:L; [|reflexivity].
  apply Nat.ltb_lt in L.
  pose proof (Split_length "/" pre). lia.
Qed.

Lemma extract_trailing_ok (pre name sha : string) :
  strings.Count "/" name = 0 -> strings.Count "/" sha = 0 ->
  strings.Count "@" name = 0 -> strings.Count "@" sha = 0 ->
  extractNameAndSha (pre ++ String "/" (name ++ String "@" sha))
  = Ok (name, sha).
Proof.
  intros Hn Hs Hn' Hs'.
  rewrite extract_trailing.
  - cbv zeta. rewrite Split_app_sep.
    now rewrite (Split_nosep "@" name Hn'), (Split_nosep "@" sha Hs').
  - rewrite Count_app. simpl. lia.
Qed.

Lemma extract_trailing_bad (pre seg : string) :
  strings.Count "/" seg = 0 -> strings.Count "@" seg <> 1 ->
  extractNameAndSha (pre ++ String "/" seg)
  = Err "invalid name and SHA format".
Proof.
  intros H Hat. rewrite (extract_trailing pre seg H). cbv zeta.
  rewrite Split_length.
  destruct (S (strings.Count "@" seg) =? 2)%nat eqn:E; [|reflexivity].
  apply Nat.eqb_eq in E. lia.
Qed.

(** A successful parse determines the shape of the input. *)
Lemma extract_ok_inv (input name sha : string) :
  extractNameAndSha input = Ok (name, sha) ->
  exists pre,
    input = (pre ++ String "/" (name ++ String "@" sha))%string /\
    strings.Count "/" name = 0 /\ strings.Count "/" sha = 0 /\
    strings.Count "@" name = 0 /\ strings.Count "@" sha = 0.
Proof.
  intros H.
  destruct (strings.Count "/" input) as [|n] eqn:C.
  { rewrite (extract_no_slash input C) in H. discriminate. }
  destruct (Split_last "/" input) as (pre & seg & -> & Hseg & _); [lia|].
  rewrite (extract_trailing pre seg Hseg) in H. cbv zeta in H.
  destruct (negb (length (strings.Split seg "@") =? 2)%nat) eqn:L;
    [discriminate|].
  apply negb_false_iff, Nat.eqb_eq in L.
  rewrite Split_length in L.
  destruct (Split_last "@" seg) as (n' & s' & -> & Hs' & Hsp); [lia|].
  rewrite Count_app in L. simpl in L.
  assert (Hn' : strings.Count "@" n' = 0) by lia.
  rewrite Hsp, (Split_nosep "@" n' Hn') in H. simpl in H.
  injection H as <- <-.
  rewrite Count_app in Hseg. simpl in Hseg.
  exists pre. repeat split; try assumption; lia.
Qed.

(** ** [strings.Contains] *)

Lemma HasPrefix_app (sub rest : string) :
  strings.HasPrefix (sub ++ rest) sub = true.
Proof.
  induction sub as [|x sub IH]; simpl; [reflexivity|].
  now rewrite Ascii.eqb_refl, IH.
Qed.

Lemma Contains_suffix (stem sub : string) :
  strings.Contains (stem ++ sub) sub = true.
Proof.
  induction stem as [|x stem IH].
  - simpl append. destruct sub as [|y sub]; [reflexivity|].
    simpl. rewrite Ascii.eqb_refl.
    pose proof (HasPrefix_app sub EmptyString) as H.
    replace (sub ++ EmptyString)%string with sub in H.
    + now rewrite H.
    + clear. induction sub as [|z sub IH]; simpl; [reflexivity|].
      now rewrite <- IH.
  - simpl. rewrite IH. now rewrite orb_true_r.
Qed.

(** ** The tag loop of [initDB] *)

Lemma last_cons (rest : list string) :
  forall t d, last (t :: rest) d = last rest t.
Proof.
  induction rest as [|u rest IH]; intros t d; [reflexivity|].
  change (last (t :: u :: rest) d) with (last (u :: rest) d).
  now rewrite (IH u d), (IH u t).
Qed.

Lemma appendTagsFresh_spec (tags : list string) :
  forall h acc h' ptrs,
    appendTagsFresh tags h acc = (h', ptrs) ->
    next h' = next h + length tags /\
    (forall q, q < next h -> cell h' q = cell h q) /\
    exists fresh,
      ptrs = acc ++ fresh /\ map (load h') fresh = tags /\
      Forall (fun p => p < next h') fresh.
Proof.
  induction tags as [|t rest IH]; intros h acc h' ptrs H; simpl in H.
  - injection H as <- <-. repeat split; [simpl; lia|].
    exists []. now rewrite app_nil_r.
  - apply IH in H. simpl in H.
    destruct H as (Hn & Hfr & fresh & -> & Hmap & Hlt).
    split; [simpl; lia|]. split.
    + intros q Hq. rewrite Hfr by lia.
      destruct (q =? next h)%nat eqn:E; [|reflexivity].
      apply Nat.eqb_eq in E. lia.
    + exists (next h :: fresh). rewrite <- app_assoc. split; [reflexivity|].
      split.
      * simpl. rewrite Hmap. unfold load. rewrite Hfr by lia.
        now rewrite Nat.eqb_refl.
      * constructor; [lia|assumption].
Qed.

Lemma appendTagsShared_spec (tag : ptr) (tags : list string) :
  forall h acc h' ptrs,
    appendTagsShared tag tags h acc = (h', ptrs) ->
    next h' = next h /\
    (forall q, q <> tag -> cell h' q = cell h q) /\
    ptrs = acc ++ repeat tag (length tags) /\
    cell h' tag = last tags (cell h tag).
Proof.
  induction tags as [|t rest IH]; intros h acc h' ptrs H; simpl in H.
  - injection H as <- <-. simpl. now rewrite app_nil_r.
  - apply IH in H. simpl in H. destruct H as (Hn & Hfr & -> & Hlast).
    split; [assumption|]. split.
    + intros q Hq. rewrite (Hfr q Hq).
      destruct (q =? tag)%nat eqn:E; [|reflexivity].
      apply Nat.eqb_eq in E. contradiction.
    + split; [now rewrite <- app_assoc|].
      rewrite Hlast, Nat.eqb_refl. now rewrite last_cons.
Qed.

(** What the loop leaves, for both meanings of the loop variable: the
    variables declared before are untouched, the new pointers are valid and
    reading them yields [recordedTags]. *)
Lemma appendTags_spec (lv : LoopVar) (tags : list string) (h h' : Heap)
    (ptrs : list ptr) :
  appendTags lv tags h = (h', ptrs) ->
  next h <= next h' /\
  (forall q, q < next h -> cell h' q = cell h q) /\
  Forall (fun p => p < next h') ptrs /\
  map (load h') ptrs = recordedTags lv tags.
Proof.
  destruct lv; simpl; intros H.
  - apply appendTagsShared_spec in H. simpl in H.
    destruct H as (Hn & Hfr & -> & Hlast).
    split; [lia|]. split.
    + intros q Hq. rewrite Hfr by lia.
      destruct (q =? next h)%nat eqn:E; [|reflexivity].
      apply Nat.eqb_eq in E. lia.
    + split.
      * apply Forall_forall. intros p Hp. apply repeat_spec in Hp. lia.
      * rewrite map_repeat. unfold load. rewrite Hlast.
        now rewrite Nat.eqb_refl.
  - apply appendTagsFresh_spec in H.
    destruct H as (Hn & Hfr & fresh & -> & Hmap & Hlt).
    split; [lia|]. split; [assumption|]. split; assumption.
Qed.

(** ** [initDB] *)

Lemma view_frame (h h' : Heap) (a : Asset) :
  (forall q, q < next h -> cell h' q = cell h q) ->
  Forall (fun p => p < next h) (Tags a) ->
  view h' a = view h a.
Proof.
  intros Hfr Hwf. unfold view, tagsOf. f_equal.
  apply map_ext_in. intros p Hp. unfold load. apply Hfr.
  rewrite Forall_forall in Hwf. now apply Hwf.
Qed.

Lemma wfMemory_initial : wfMemory initialMemory.
Proof. constructor. Qed.

(** One image that parses: the memory after the iteration. *)
Lemma initDBLoop_step (lv : LoopVar) (img : pb.DockerImage) (v : AssetView)
    (m : Memory) :
  assetOfImage lv img = Some v -> wfMemory m ->
  exists m1,
    wfMemory m1 /\ snapshot m1 = snapshot m ++ [v] /\
    forall it, initDBLoop lv (Ok img :: it) m = initDBLoop lv it m1.
Proof.
  unfold assetOfImage. intros Hv Hwf.
  destruct (extractNameAndSha (pb.Name img)) as [[name sha]|e] eqn:E;
    [|discriminate].
  injection Hv as <-.
  destruct (appendTags lv (pb.Tags img) (heap m)) as [h tags] eqn:A.
  destruct (appendTags_spec _ _ _ _ _ A) as (Hle & Hfr & Hlt & Hmap).
  eexists. split; [|split].
  3: { intros it. simpl. rewrite E, A. reflexivity. }
  - unfold wfMemory in *. simpl. apply Forall_app. split.
    + eapply Forall_impl; [|exact Hwf]. simpl. intros a Ha.
      eapply Forall_impl; [|exact Ha]. simpl. intros p Hp. lia.
    + constructor; [exact Hlt|constructor].
  - unfold snapshot. simpl. rewrite map_app. simpl. f_equal.
    + apply map_ext_in. intros a Ha. apply view_frame; [assumption|].
      unfold wfMemory in Hwf. rewrite Forall_forall in Hwf. now apply Hwf.
    + unfold view, tagsOf. simpl. now rewrite Hmap.
Qed.

(** A run of images that parse: the loop appends their assets and goes on
    with the rest of the listing. *)
Lemma initDBLoop_app (lv : LoopVar) (imgs : list pb.DockerImage) :
  forall (views : list AssetView) (m : Memory),
    map (assetOfImage lv) imgs = map Some views -> wfMemory m ->
    exists m1,
      wfMemory m1 /\ snapshot m1 = snapshot m ++ views /\
      forall it, initDBLoop lv (map Ok imgs ++ it) m = initDBLoop lv it m1.
Proof.
  induction imgs as [|img imgs IH]; intros views m Hv Hwf.
  - destruct views; [|discriminate]. exists m.
    rewrite app_nil_r. repeat split; assumption.
  - destruct views as [|v views]; [discriminate|].
    simpl in Hv. injection Hv as Hv Hvs.
    destruct (initDBLoop_step lv img v m Hv Hwf) as (m1 & Hwf1 & Hs1 & Hrun1).
    destruct (IH views m1 Hvs Hwf1) as (m2 & Hwf2 & Hs2 & Hrun2).
    exists m2. split; [assumption|]. split.
    + rewrite Hs2, Hs1, <- app_assoc. reflexivity.
    + intros it. cbn [map app]. rewrite Hrun1. apply Hrun2.
Qed.

Lemma initDBLoop_fails (lv : LoopVar) (bad : result pb.DockerImage)
    (e : error) (rest : DockerImageIterator) (m : Memory) :
  failsWith bad e -> initDBLoop lv (bad :: rest) m = (Some e, m).
Proof.
  intros [->|(img & -> & H)]; simpl; [reflexivity|]. now rewrite H.
Qed.

(** Every listing is a run of images that parse, followed by nothing or by
    an entry on which the build stops. *)
Lemma listing_decompose (lv : LoopVar) (it : DockerImageIterator) :
  exists imgs views tail,
    it = map Ok imgs ++ tail /\
    map (assetOfImage lv) imgs = map Some views /\
    (tail = [] \/ exists bad rest e, tail = bad :: rest /\ failsWith bad e).
Proof.
  induction it as [|entry it IH].
  - exists [], [], []. repeat split. now left.
  - destruct entry as [img|e].
    + destruct (assetOfImage lv img) as [v|] eqn:V.
      * destruct IH as (imgs & views & tail & -> & Hv & Ht).
        exists (img :: imgs), (v :: views), tail.
        repeat split; [simpl; now rewrite V, Hv|assumption].
      * exists [], [], (Ok img :: it). repeat split. right.
        unfold assetOfImage in V.
        destruct (extractNameAndSha (pb.Name img)) as [[n s]|e] eqn:E;
          [discriminate|].
        exists (Ok img), it, e. split; [reflexivity|]. right. now exists img.
    + exists [], [], (Err e :: it). repeat split. right.
      exists (Err e), it, e. split; [reflexivity|]. now left.
Qed.

Lemma assetOfImage_parsed (lv : LoopVar) (imgs : list pb.DockerImage) :
  forall views,
    map (assetOfImage lv) imgs = map Some views -> Forall parsed views.
Proof.
  induction imgs as [|img imgs IH]; intros [|v views] H; try discriminate;
    constructor.
  - simpl in H. injection H as H _. unfold assetOfImage in H.
    destruct (extractNameAndSha (pb.Name img)) as [[n s]|e] eqn:E;
      [|discriminate].
    injection H as <-. exact E.
  - simpl in H. injection H as _ H. now apply IH.
Qed.

Lemma initDB_formatPath (lv : LoopVar) (config : Config)
    (client : ArtifactRegistryClient) (m : Memory) :
  exists path,
    formatPath config = Ok path /\
    initDB lv config client m = initDBLoop lv (client path) m.
Proof. eexists. split; reflexivity. Qed.

(** A build runs through the images that parse and stops at the first
    entry that does not, or at the end of the listing. *)
Lemma initDBLoop_outcome (lv : LoopVar) (it : DockerImageIterator)
    (m : Memory) :
  wfMemory m ->
  exists imgs views tail,
    it = map Ok imgs ++ tail /\
    map (assetOfImage lv) imgs = map Some views /\
    wfMemory (snd (initDBLoop lv it m)) /\
    snapshot (snd (initDBLoop lv it m)) = snapshot m ++ views /\
    ((tail = [] /\ fst (initDBLoop lv it m) = None) \/
     (exists bad rest e,
         tail = bad :: rest /\ failsWith bad e /\
         fst (initDBLoop lv it m) = Some e)).
Proof.
  intros Hwf.
  destruct (listing_decompose lv it) as (imgs & views & tail & -> & Hv & Ht).
  destruct (initDBLoop_app lv imgs views m Hv Hwf) as (m1 & Hwf1 & Hs & Hrun).
  exists imgs, views, tail. rewrite Hrun.
  split; [reflexivity|]. split; [assumption|].
  destruct Ht as [->|(bad & rest & e & -> & Hbad)].
  - simpl. repeat split; try assumption. now left.
  - rewrite (initDBLoop_fails lv bad e rest m1 Hbad). simpl.
    repeat split; try assumption. right. now exists bad, rest, e.
Qed.

(** A build that completes went through the whole listing. *)
Lemma initDB_complete (lv : LoopVar) (config : Config)
    (client : ArtifactRegistryClient) (m m' : Memory) :
  wfMemory m ->
  initDB lv config client m = (None, m') ->
  exists imgs views,
    (forall path, formatPath config = Ok path -> client path = map Ok imgs)
    /\ map (assetOfImage lv) imgs = map Some views
    /\ wfMemory m'
    /\ snapshot m' = snapshot m ++ views.
Proof.
  intros Hwf H.
  destruct (initDB_formatPath lv config client m) as (path & Hp & Hrun).
  rewrite Hrun in H.
  destruct (initDBLoop_outcome lv (client path) m Hwf)
    as (imgs & views & tail & Hit & Hv & Hwf' & Hs & Hend).
  rewrite H in Hwf', Hs, Hend. simpl in Hwf', Hs, Hend.
  destruct Hend as [[-> _]|(bad & rest & e & _ & _ & He)]; [|discriminate].
  exists imgs, views. rewrite app_nil_r in Hit.
  repeat split; try assumption.
  intros path' Hp'. rewrite Hp in Hp'. injection Hp' as <-. exact Hit.
Qed.

(** ** The loops of the two routes *)

Section Routes.

Variable World : Type.
Variable backend : Backend World.
Variable config : Config.

Lemma digestLoop_find (assetName assetSHA : string) (assets : list Asset)
    (w : http.ResponseWriter) :
  digestLoop World backend config assetName assetSHA assets w =
  match find (matchesDigest assetName assetSHA) assets with
  | Some asset => serveDigest World backend config asset w
  | None => ret w
  end.
Proof.
  induction assets as [|a assets IH]; simpl; [reflexivity|].
  unfold matchesDigest at 1.
  destruct (String.eqb (Name a) assetName && String.eqb (SHA a) assetSHA);
    [reflexivity|exact IH].
Qed.

Lemma tagInnerLoop_existsb (h : Heap) (assetTag : string) (asset : Asset)
    (tags : list ptr) (w : http.ResponseWriter)
    (continue : M World http.ResponseWriter) :
  tagInnerLoop World backend config h assetTag asset tags w continue =
  if existsb (fun tag => String.eqb (load h tag) assetTag) tags
  then serveTag World backend config asset w
  else continue.
Proof.
  induction tags as [|tag tags IH]; simpl; [reflexivity|].
  destruct (String.eqb (load h tag) assetTag); [reflexivity|exact IH].
Qed.

Lemma tagLoop_find (h : Heap) (assetName assetTag : string)
    (assets : list Asset) (w : http.ResponseWriter) :
  tagLoop World backend config h assetName assetTag assets w =
  match find (matchesTag h assetName assetTag) assets with
  | Some asset => serveTag World backend config asset w
  | None => ret w
  end.
Proof.
  induction assets as [|a assets IH]; simpl; [reflexivity|].
  unfold matchesTag at 1. rewrite tagInnerLoop_existsb.
  destruct (String.eqb (Name a) assetName); simpl; [|exact IH].
  destruct (existsb _ (Tags a)); [reflexivity|exact IH].
Qed.

(** The digest route serves the asset of [lookupByDigest], after the log
    line, and returns at once when there is none. *)
Lemma digestHandler_lookup (m : Memory) (assetName assetSHA : string)
    (w : http.ResponseWriter) (p : Proc World) :
  digestHandler World backend config m assetName assetSHA w p =
  let p' := {| world := world p;
               trace := trace p
                        ++ [EvLog (assetName ++ " " ++ assetSHA)%string] |} in
  match lookupByDigest m assetName assetSHA with
  | Some asset => serveDigest World backend config asset w p'
  | None => Return w p'
  end.
Proof.
  unfold digestHandler, bind, log_Println, emit, lookupByDigest.
  rewrite digestLoop_find.
  destruct (find _ _); reflexivity.
Qed.

Lemma tagHandler_lookup (m : Memory) (assetName assetTag : string)
    (w : http.ResponseWriter) :
  tagHandler World backend config m assetName assetTag w =
  match lookupByTag m assetName assetTag with
  | Some asset => serveTag World backend config asset w
  | None => ret w
  end.
Proof. unfold tagHandler, lookupByTag. apply tagLoop_find. Qed.

(** The two bodies differ by the explicit status only, which the client
    cannot tell from the implicit one. *)
Lemma serve_same (asset : Asset) (w : http.ResponseWriter)
    (p p' : Proc World) :
  world p = world p' ->
  let od := serveDigest World backend config asset w p in
  let ot := serveTag World backend config asset w p' in
  clientSees od = clientSees ot /\
  exited od = exited ot /\
  world (finalProc od) = world (finalProc ot).
Proof.
  intros Hw. unfold serveDigest, serveTag, getCredential, nilMetaPanic, bind,
    call, ret, log_Fatal, log_Println, emit. rewrite <- Hw.
  destruct (ReadFile backend (Credential config) (world p))
    as [[bytes|e] w1]; simpl; [|repeat split].
  destruct (Login backend (URI asset) "_json_key" bytes w1)
    as [[e|] w2]; simpl; [repeat split|].
  destruct (Pull backend (URI asset) w2) as [[result|e] w3]; simpl;
    [|repeat split].
  destruct (registry.ChartMeta result) as [meta|]; simpl; [|repeat split].
  repeat split. f_equal.
  unfold io_Copy. destruct (registry.ChartData result) as [|c data]; simpl.
  - unfold http.finishRequest, http.WriteHeader, http.SetHeader; simpl.
    destruct (http.wroteHeader w); reflexivity.
  - unfold http.finishRequest, http.Write, http.WriteHeader, http.SetHeader;
      simpl.
    destruct (http.wroteHeader w); reflexivity.
Qed.

(** A pull that succeeds and carries metadata, on a fresh response. *)
Lemma serveDigest_success (asset : Asset) (p : Proc World)
    (bytes : string) (result : registry.PullResult)
    (meta : registry.Metadata) (w1 w2 w3 : World) :
  ReadFile backend (Credential config) (world p) = (Ok bytes, w1) ->
  Login backend (URI asset) "_json_key" bytes w1 = (None, w2) ->
  Pull backend (URI asset) w2 = (Ok result, w3) ->
  registry.ChartMeta result = Some meta ->
  clientSees (serveDigest World backend config asset
                http.newResponseWriter p) =
  Some {| http.StatusCode := http.StatusOK;
          http.ResponseHeader :=
            [("Content-Disposition",
              http.wireValue
                ("attachment; filename=" ++ registry.Name meta
                   ++ "-" ++ registry.Version meta ++ ".tgz")%string)];
          http.Body := registry.ChartData result |}.
Proof.
  intros H1 H2 H3 H4.
  unfold serveDigest, getCredential, bind, call, ret.
  rewrite H1. simpl. rewrite H2. simpl. rewrite H3. simpl. rewrite H4.
  unfold io_Copy. destruct (registry.ChartData result); reflexivity.
Qed.

(** A pull that succeeds without metadata: the handler panics and the
    recovery middleware answers, in both routes alike. *)
Lemma serve_nil_meta (asset : Asset) (w : http.ResponseWriter)
    (p : Proc World) (bytes : string) (result : registry.PullResult)
    (w1 w2 w3 : World) :
  ReadFile backend (Credential config) (world p) = (Ok bytes, w1) ->
  Login backend (URI asset) "_json_key" bytes w1 = (None, w2) ->
  Pull backend (URI asset) w2 = (Ok result, w3) ->
  registry.ChartMeta result = None ->
  clientSees (serveDigest World backend config asset w p)
  = Some (http.finishRequest (Recoverer backend w)) /\
  clientSees (serveTag World backend config asset w p)
  = Some (http.finishRequest (Recoverer backend w)).
Proof.
  intros H1 H2 H3 H4.
  unfold serveDigest, serveTag, getCredential, nilMetaPanic, bind, call, ret,
    log_Println, emit.
  rewrite H1. simpl. rewrite H2. simpl. rewrite H3. simpl. rewrite H4.
  split; reflexivity.
Qed.

End Routes.

(** ** First matches *)

Lemma find_firstThat {A} (f : A -> bool) (l : list A) (a : A) :
  find f l = Some a <-> firstThat f l a.
Proof.
  split.
  - induction l as [|x l IH]; simpl; [discriminate|].
    destruct (f x) eqn:E.
    + intros [= <-]. exists [], l. repeat split; [assumption|].
      intros b [].
    + intros H. destruct (IH H) as (before & after & -> & Ha & Hb).
      exists (x :: before), after. repeat split; [assumption|].
      intros b [<-|Hin]; [assumption|now apply Hb].
  - intros (before & after & -> & Ha & Hb).
    induction before as [|x before IH]; simpl.
    + now rewrite Ha.
    + rewrite (Hb x (or_introl eq_refl)).
      apply IH. intros b Hin. apply Hb. now right.
Qed.

Lemma find_none_iff {A} (f : A -> bool) (l : list A) :
  find f l = None <-> forall b, In b l -> f b = false.
Proof.
  split; [apply find_none|].
  induction l as [|x l IH]; simpl; [reflexivity|].
  intros H. rewrite (H x (or_introl eq_refl)).
  apply IH. intros b Hin. apply H. now right.
Qed.

Lemma find_map {A B} (g : A -> B) (f : B -> bool) (l : list A) :
  find f (map g l) = option_map g (find (fun a => f (g a)) l).
Proof.
  induction l as [|x l IH]; simpl; [reflexivity|].
  destruct (f (g x)); [reflexivity|exact IH].
Qed.

Lemma matchesTag_iff (h : Heap) (assetName assetTag : string) (a : Asset) :
  matchesTag h assetName assetTag a = true <->
  Name a = assetName /\ In assetTag (tagsOf h a).
Proof.
  unfold matchesTag, tagsOf.
  rewrite andb_true_iff, String.eqb_eq, existsb_exists, in_map_iff.
  split; intros [Hn (p & H1 & H2)]; (split; [assumption|]); exists p.
  - apply String.eqb_eq in H2. now split.
  - split; [assumption|]. now apply String.eqb_eq.
Qed.

Lemma matchesTag_view (h : Heap) (assetName assetTag : string) (a : Asset) :
  matchesTag h assetName assetTag a
  = matchesTagView assetName assetTag (view h a).
Proof.
  unfold matchesTag, matchesTagView, view, tagsOf. simpl. f_equal.
  induction (Tags a) as [|p l IH]; simpl; [reflexivity|]. now rewrite IH.
Qed.

Lemma matchesDigest_iff (assetName assetSHA : string) (a : Asset) :
  matchesDigest assetName assetSHA a = true <->
  Name a = assetName /\ SHA a = assetSHA.
Proof.
  unfold matchesDigest. now rewrite andb_true_iff, !String.eqb_eq.
Qed.

Lemma not_true_iff_false' (b : bool) (P : Prop) :
  (b = true <-> P) -> (b = false <-> ~ P).
Proof.
  intros H. destruct b; split; intros H'; try reflexivity; try discriminate.
  - exfalso. apply H'. now apply H.
  - intros HP. apply H in HP. discriminate.
Qed.

(** ** Header values as sent *)

Lemma headerNewlineToSpace_id (v : string) :
  strings.Count "010"%char v = 0 -> strings.Count "013"%char v = 0 ->
  http.headerNewlineToSpace v = v.
Proof.
  induction v as [|c v IH]; simpl; [reflexivity|].
  unfold http.isNewline.
  destruct (Ascii.eqb c "010"%char); [discriminate|].
  destruct (Ascii.eqb c "013"%char); [discriminate|].
  simpl. intros H1 H2. now rewrite IH.
Qed.

Lemma trimRight_app_kept (a b : string) :
  http.trimRight b = b -> b <> EmptyString ->
  http.trimRight (a ++ b) = (a ++ b)%string /\ (a ++ b)%string <> EmptyString.
Proof.
  intros Hb Hne. induction a as [|c a [IH1 IH2]]; [now split|].
  split; [|discriminate]. cbn [append http.trimRight]. rewrite IH1.
  destruct (a ++ b)%string; [contradiction|reflexivity].
Qed.

(** A value without CR and LF that starts with [attachment] and ends with
    [.tgz] is sent as it is. *)
Lemma wireValue_contentDisposition (name version : string) :
  strings.Count "010"%char name = 0 -> strings.Count "013"%char name = 0 ->
  strings.Count "010"%char version = 0 ->
  strings.Count "013"%char version = 0 ->
  http.wireValue
    ("attachment; filename=" ++ name ++ "-" ++ version ++ ".tgz")
  = ("attachment; filename=" ++ name ++ "-" ++ version ++ ".tgz")%string.
Proof.
  intros N1 N2 V1 V2. unfold http.wireValue.
  rewrite headerNewlineToSpace_id.
  - unfold http.TrimString.
    change (http.trimLeft
              ("attachment; filename=" ++ name ++ "-" ++ version ++ ".tgz"))
      with ("attachment; filename=" ++ name ++ "-" ++ version
              ++ ".tgz")%string.
    assert (K1 := trimRight_app_kept version ".tgz" eq_refl
                    ltac:(discriminate)).
    assert (K2 := trimRight_app_kept "-" _ (proj1 K1) (proj2 K1)).
    assert (K3 := trimRight_app_kept name _ (proj1 K2) (proj2 K2)).
    exact (proj1 (trimRight_app_kept "attachment; filename=" _
                    (proj1 K3) (proj2 K3))).
  - repeat (progress (rewrite ?Count_app; simpl)). lia.
  - repeat (progress (rewrite ?Count_app; simpl)). lia.
Qed.

(** ** The memory after the build *)

(** The operations only append to the index: the assets that it holds read
    as before. *)
Lemma memoryAfterAll_keeps (lv : LoopVar) (ops : list Operation) :
  forall m,
    wfMemory m ->
    wfMemory (memoryAfterAll lv ops m) /\
    exists more, snapshot (memoryAfterAll lv ops m) = snapshot m ++ more.
Proof.
  induction ops as [|op ops IH]; intros m Hwf; simpl.
  - split; [assumption|]. exists []. now rewrite app_nil_r.
  - destruct op as [config client|n d|n t]; simpl; try now apply IH.
    destruct (initDB_formatPath lv config client m) as (path & _ & ->).
    destruct (initDBLoop_outcome lv (client path) m Hwf)
      as (imgs & views & tail & _ & _ & Hwf' & Hs & _).
    destruct (IH _ Hwf') as (Hwf'' & more & Hmore).
    split; [assumption|]. exists (views ++ more).
    now rewrite Hmore, Hs, <- app_assoc.
Qed.

(** * The claims *)

(** ** Parsing resource names *)

(** C4.  [extractNameAndSha] succeeds exactly on the identifiers
    [pre/name@digest] whose trailing segment [name@digest] holds one [@]:
    it returns the part before the [@] as the name and the part after it as
    the digest.  It succeeds iff the identifier has a [/] (two segments or
    more) and the segment after the last [/] has exactly one [@]; without a
    [/] it fails with "invalid input format", and with a trailing segment
    that has no [@] or more than one it fails with "invalid name and SHA
    format". *)
Theorem extractNameAndSha_spec (input : string) :
  (forall name sha,
      extractNameAndSha input = Ok (name, sha) <->
      exists pre,
        input = (pre ++ "/" ++ name ++ "@" ++ sha)%string /\
        strings.Count "/" name = 0 /\ strings.Count "/" sha = 0 /\
        strings.Count "@" name = 0 /\ strings.Count "@" sha = 0) /\
  ((exists parsed, extractNameAndSha input = Ok parsed) <->
   exists pre seg,
     input = (pre ++ "/" ++ seg)%string /\
     strings.Count "/" seg = 0 /\ strings.Count "@" seg = 1) /\
  (strings.Count "/" input = 0 ->
   extractNameAndSha input = Err "invalid input format") /\
  (forall pre seg,
      input = (pre ++ "/" ++ seg)%string ->
      strings.Count "/" seg = 0 -> strings.Count "@" seg <> 1 ->
      extractNameAndSha input = Err "invalid name and SHA format").
Proof.
  split; [|split; [|split]].
  - intros name sha. split.
    + apply extract_ok_inv.
    + intros (pre & -> & Hn & Hs & Hn' & Hs').
      now apply extract_trailing_ok.
  - split.
    + intros [[name sha] H].
      destruct (extract_ok_inv _ _ _ H) as (pre & -> & Hn & Hs & Hn' & Hs').
      exists pre, (name ++ String "@" sha)%string.
      split; [reflexivity|]. rewrite !Count_app. simpl. lia.
    + intros (pre & seg & -> & Hseg & Hat).
      destruct (Split_last "@" seg) as (n & s & -> & Hs & _); [lia|].
      rewrite Count_app in Hseg, Hat. simpl in Hseg, Hat.
      exists (n, s). apply extract_trailing_ok; lia.
  - apply extract_no_slash.
  - intros pre seg -> Hseg Hat. now apply extract_trailing_bad.
Qed.

Lemma extractNameAndSha_spec_witness :
  extractNameAndSha "a/b@sha256:1" = Ok ("b", "sha256:1") /\
  extractNameAndSha "b@sha256:1" = Err "invalid input format" /\
  extractNameAndSha "a/b@sha256:1@x" = Err "invalid name and SHA format".
Proof.
  split; [|split].
  - apply (proj1 (extractNameAndSha_spec "a/b@sha256:1")).
    exists "a". repeat split.
  - apply (proj1 (proj2 (proj2 (extractNameAndSha_spec "b@sha256:1")))).
    reflexivity.
  - apply (proj2 (proj2 (proj2 (extractNameAndSha_spec "a/b@sha256:1@x")))
             "a" "b@sha256:1@x"); [reflexivity|reflexivity|].
    simpl. discriminate.
Defined.

(** ** The metadata gateway *)

(** C9.  For a path that ends in [.ico] the handler of the metadata gateway
    answers 404 with the body "404 Not Found" and returns with the process
    state as it found it: nothing was added to the trace, so no backend
    call took place, and the outside world did not change. *)
Theorem getAssetsHandler_favicon (World : Type)
    (backend : metadata.Backend World) (stem : string)
    (w : http.ResponseWriter) (p : Proc World) :
  metadata.getAssetsHandler backend (stem ++ ".ico") w p =
    Return (http.Write (http.WriteHeader w http.StatusNotFound)
              "404 Not Found
") p /\
  clientSees (metadata.getAssetsHandler backend (stem ++ ".ico")
                http.newResponseWriter p) =
    Some {| http.StatusCode := 404; http.ResponseHeader := [];
            http.Body := "404 Not Found
" |} /\
  filter isBackendCall
    (trace (finalProc (metadata.getAssetsHandler backend (stem ++ ".ico")
                         w p)))
  = filter isBackendCall (trace p).
Proof.
  unfold metadata.getAssetsHandler.
  rewrite (Contains_suffix stem ".ico").
  repeat split.
Qed.

(** The metadata gateway reports a failure of the backend to the client,
    as a 500 with the message of the error, and goes on serving. *)
Lemma getAssetsHandler_error_500 (World : Type)
    (backend : metadata.Backend World) (path : string) (e : error)
    (p p' : Proc World) :
  strings.Contains path ".ico" = false ->
  metadata.getImageMetadataReader backend path p = Return (Err e) p' ->
  metadata.getAssetsHandler backend path http.newResponseWriter p =
    Return (http.Write
              (http.WriteHeader http.newResponseWriter
                 http.StatusInternalServerError) e) p' /\
  clientSees (metadata.getAssetsHandler backend path
                http.newResponseWriter p) =
    Some {| http.StatusCode := 500; http.ResponseHeader := [];
            http.Body := e |}.
Proof.
  intros Hico Hread. unfold metadata.getAssetsHandler.
  rewrite Hico. unfold bind. rewrite Hread. split; reflexivity.
Qed.

Example getAssetsHandler_unreachable :
  clientSees (metadata.getAssetsHandler Scenario.unreachable "b@sha256:1"
                http.newResponseWriter Scenario.start) =
  Some {| http.StatusCode := 500; http.ResponseHeader := [];
          http.Body := "rpc error: code = Unavailable" |}.
Proof. reflexivity. Qed.

(** ** Failures while serving a pull *)

(** Any of the three failures ends the process in the digest route. *)
Lemma serveDigest_failure_exits (World : Type) (backend : Backend World)
    (config : Config) (asset : Asset) (w : http.ResponseWriter)
    (p : Proc World) :
  (exists e w1, ReadFile backend (Credential config) (world p) = (Err e, w1))
  \/ (exists bytes e w1 w2,
        ReadFile backend (Credential config) (world p) = (Ok bytes, w1) /\
        Login backend (URI asset) "_json_key" bytes w1 = (Some e, w2))
  \/ (exists bytes e w1 w2 w3,
        ReadFile backend (Credential config) (world p) = (Ok bytes, w1) /\
        Login backend (URI asset) "_json_key" bytes w1 = (None, w2) /\
        Pull backend (URI asset) w2 = (Err e, w3)) ->
  exited (serveDigest World backend config asset w p) = true /\
  clientSees (serveDigest World backend config asset w p) = None.
Proof.
  unfold serveDigest, getCredential, bind, call, ret, log_Fatal.
  intros [(e & w1 & H1)|[(b & e & w1 & w2 & H1 & H2)
                        |(b & e & w1 & w2 & w3 & H1 & H2 & H3)]];
    rewrite H1; simpl; try (rewrite H2; simpl); try (rewrite H3; simpl);
    split; reflexivity.
Qed.

(** C1, on the code.  A request of the index-backed gateway that matches an
    asset ends the whole process with [os.Exit(1)] when the credential file
    cannot be read, when the login is refused or when the pull fails: the
    client gets no response, where the claim asks for a 5xx response and a
    process that goes on serving.  Both routes behave so. *)
Theorem gateway_failure_exits :
  digestHandler unit Scenario.noCredential Scenario.config Scenario.memory
    "b" "sha256:1" http.newResponseWriter Scenario.start
  = Exit 1 {| world := tt;
              trace := [EvLog "b sha256:1"; EvReadFile "/secrets/key.json";
                        EvLog "open /secrets/key.json: no such file"] |} /\
  exited (digestHandler unit Scenario.loginRefused Scenario.config
            Scenario.memory "b" "sha256:1" http.newResponseWriter
            Scenario.start) = true /\
  exited (digestHandler unit Scenario.pullFails Scenario.config
            Scenario.memory "b" "sha256:1" http.newResponseWriter
            Scenario.start) = true /\
  exited (tagHandler unit Scenario.noCredential Scenario.config
            Scenario.memory "b" "v1" http.newResponseWriter
            Scenario.start) = true /\
  exited (tagHandler unit Scenario.loginRefused Scenario.config
            Scenario.memory "b" "v1" http.newResponseWriter
            Scenario.start) = true /\
  tagHandler unit Scenario.pullFails Scenario.config Scenario.memory
    "b" "v1" http.newResponseWriter Scenario.start
  = Exit 1 {| world := tt;
              trace := [EvReadFile "/secrets/key.json";
                        EvLogin "registry.example/a/b@sha256:1" "_json_key"
                          "secret";
                        EvPull "registry.example/a/b@sha256:1";
                        EvLog "pull: manifest unknown"] |}.
Proof. repeat split. Qed.

(** ** Requests that match no asset *)

Lemma digestHandler_no_match (World : Type) (backend : Backend World)
    (config : Config) (m : Memory) (assetName assetSHA : string)
    (w : http.ResponseWriter) (p : Proc World) :
  lookupByDigest m assetName assetSHA = None ->
  clientSees (digestHandler World backend config m assetName assetSHA w p)
  = Some (http.finishRequest w).
Proof. intros H. rewrite digestHandler_lookup. simpl. now rewrite H. Qed.

Lemma tagHandler_no_match (World : Type) (backend : Backend World)
    (config : Config) (m : Memory) (assetName assetTag : string)
    (w : http.ResponseWriter) (p : Proc World) :
  lookupByTag m assetName assetTag = None ->
  tagHandler World backend config m assetName assetTag w p = Return w p.
Proof. intros H. rewrite tagHandler_lookup. now rewrite H. Qed.

(** C2, on the code.  A request that matches no asset of the index leaves
    the response untouched, so the client receives the status 200 with an
    empty body, where the claim asks for a 404: a wrong digest for the
    indexed name [b], and a tag that no asset carries. *)
Theorem gateway_no_match_is_empty_200 :
  lookupByDigest Scenario.memory "b" "sha256:1" <> None /\
  lookupByDigest Scenario.memory "b" "sha256:2" = None /\
  clientSees (digestHandler unit Scenario.healthy Scenario.config
                Scenario.memory "b" "sha256:2" http.newResponseWriter
                Scenario.start)
  = Some {| http.StatusCode := 200; http.ResponseHeader := [];
            http.Body := EmptyString |} /\
  lookupByTag Scenario.memory "b" "v9" = None /\
  clientSees (tagHandler unit Scenario.healthy Scenario.config
                Scenario.memory "b" "v9" http.newResponseWriter
                Scenario.start)
  = Some {| http.StatusCode := 200; http.ResponseHeader := [];
            http.Body := EmptyString |}.
Proof. repeat split. discriminate. Qed.

(** ** Resolution by tag *)

(** The asset found is determined by the views of the index alone. *)
Lemma lookupByTag_snapshot (m : Memory) (assetName assetTag : string) :
  option_map (view (heap m)) (lookupByTag m assetName assetTag)
  = find (matchesTagView assetName assetTag) (snapshot m).
Proof.
  unfold lookupByTag, snapshot. rewrite find_map. f_equal.
  induction (Assets (RepositoryDB m)) as [|a l IH]; simpl; [reflexivity|].
  rewrite matchesTag_view. destruct (matchesTagView _ _ _); [reflexivity|].
  exact IH.
Qed.

(** C5.  The tag route serves the asset of [lookupByTag] and returns at once
    when there is none.  [lookupByTag] yields the first asset, in the order
    of the index, whose name is the requested one and whose recorded tags
    contain the requested tag: every asset before it fails one of the two.
    It yields nothing exactly when no asset of the index matches.  So among
    several assets that carry the tag, the one appended first wins: after a
    build from the empty index, the asset found is the one of the first
    listed image whose recorded name and tags match, whatever the order of
    the listing. *)
Theorem tag_lookup_first_match (World : Type) (backend : Backend World)
    (config : Config) (m : Memory) (assetName assetTag : string) :
  (forall w,
      tagHandler World backend config m assetName assetTag w =
      match lookupByTag m assetName assetTag with
      | Some asset => serveTag World backend config asset w
      | None => ret w
      end) /\
  (forall a,
      lookupByTag m assetName assetTag = Some a <->
      exists before after,
        Assets (RepositoryDB m) = before ++ a :: after /\
        (Name a = assetName /\ In assetTag (tagsOf (heap m) a)) /\
        forall b, In b before ->
                  ~ (Name b = assetName /\ In assetTag (tagsOf (heap m) b)))
  /\
  (lookupByTag m assetName assetTag = None <->
   forall b, In b (Assets (RepositoryDB m)) ->
             ~ (Name b = assetName /\ In assetTag (tagsOf (heap m) b))) /\
  (forall lv client,
      initDB lv config client initialMemory = (None, m) ->
      exists imgs views,
        (forall path, formatPath config = Ok path ->
                      client path = map Ok imgs) /\
        map (assetOfImage lv) imgs = map Some views /\
        option_map (view (heap m)) (lookupByTag m assetName assetTag)
        = find (matchesTagView assetName assetTag) views).
Proof.
  split; [|split; [|split]].
  - intros w. apply tagHandler_lookup.
  - intros a. unfold lookupByTag. rewrite find_firstThat. unfold firstThat.
    split; intros (before & after & Hl & Ha & Hb); exists before, after;
      (split; [assumption|]); split.
    + now apply matchesTag_iff.
    + intros b Hin.
      apply (not_true_iff_false' _ _ (matchesTag_iff _ _ _ b)). now apply Hb.
    + now apply matchesTag_iff.
    + intros b Hin.
      apply (not_true_iff_false' _ _ (matchesTag_iff _ _ _ b)). now apply Hb.
  - unfold lookupByTag. rewrite find_none_iff.
    split; intros H b Hin;
      apply (not_true_iff_false' _ _ (matchesTag_iff _ _ _ b)); now apply H.
  - intros lv client H.
    destruct (initDB_complete lv config client initialMemory m
                wfMemory_initial H) as (imgs & views & Hlist & Hv & _ & Hs).
    exists imgs, views. split; [assumption|]. split; [assumption|].
    rewrite lookupByTag_snapshot. now rewrite Hs.
Qed.

(** Two assets named [b] carry the tag [v1]; the first of the index wins. *)
Lemma tag_lookup_first_match_witness :
  let m := snd (initDB PerIteration Scenario.config
                  (fun _ => [Ok Scenario.image;
                             Ok {| pb.Name := "c/b@sha256:3";
                                   pb.Uri := "registry.example/c/b@sha256:3";
                                   pb.Tags := ["v0"; "v1"];
                                   pb.MediaType := EmptyString |}])
                  initialMemory) in
  exists a, lookupByTag m "b" "v1" = Some a /\ SHA a = "sha256:1".
Proof.
  intros m.
  exists {| Name := "b"; SHA := "sha256:1"; RawName := "a/b@sha256:1";
            URI := "registry.example/a/b@sha256:1";
            MediaType := "application/vnd.oci.image.manifest";
            Tags := [0] |}.
  split; [|reflexivity].
  apply (proj2 (proj1 (proj2 (tag_lookup_first_match unit Scenario.healthy
                                Scenario.config m "b" "v1")) _)).
  exists [], [{| Name := "b"; SHA := "sha256:3"; RawName := "c/b@sha256:3";
                 URI := "registry.example/c/b@sha256:3"; MediaType := EmptyString;
                 Tags := [1; 2] |}].
  split; [reflexivity|]. split.
  - split; [reflexivity|]. left. reflexivity.
  - intros b [].
Defined.

(** ** One asset, two addresses *)

(** Two requests that resolve to the same asset get the same answer. *)
Lemma same_asset_same_response (World : Type) (backend : Backend World)
    (config : Config) (m : Memory) (assetName assetSHA assetTag : string)
    (a : Asset) (w : http.ResponseWriter) (p : Proc World) :
  lookupByDigest m assetName assetSHA = Some a ->
  lookupByTag m assetName assetTag = Some a ->
  let byDigest :=
    digestHandler World backend config m assetName assetSHA in
  let byTag := tagHandler World backend config m assetName assetTag in
  clientSees (byDigest w p) = clientSees (byTag w p) /\
  exited (byDigest w p) = exited (byTag w p) /\
  world (finalProc (byDigest w p)) = world (finalProc (byTag w p)) /\
  forall bytes result w1 w2 w3,
    ReadFile backend (Credential config) (world p) = (Ok bytes, w1) ->
    Login backend (URI a) "_json_key" bytes w1 = (None, w2) ->
    Pull backend (URI a) w2 = (Ok result, w3) ->
    clientSees (byTag http.newResponseWriter p) =
    match registry.ChartMeta result with
    | Some meta =>
        Some {| http.StatusCode := 200;
                http.ResponseHeader :=
                  [("Content-Disposition",
                    http.wireValue
                      ("attachment; filename=" ++ registry.Name meta
                         ++ "-" ++ registry.Version meta ++ ".tgz")%string)];
                http.Body := registry.ChartData result |}
    | None =>
        Some (http.finishRequest (Recoverer backend http.newResponseWriter))
    end.
Proof.
  intros Hd Ht byDigest byTag. subst byDigest byTag.
  pose (p' := {| world := world p;
                 trace := trace p
                   ++ [EvLog (assetName ++ " " ++ assetSHA)%string] |}).
  assert (Hsame : forall w0,
             digestHandler World backend config m assetName assetSHA w0 p
             = serveDigest World backend config a w0 p').
  { intros w0. rewrite digestHandler_lookup. simpl. now rewrite Hd. }
  assert (Htag : forall w0,
             tagHandler World backend config m assetName assetTag w0 p
             = serveTag World backend config a w0 p).
  { intros w0. rewrite tagHandler_lookup. now rewrite Ht. }
  destruct (serve_same World backend config a w p' p eq_refl)
    as (H1 & H2 & H3).
  rewrite Hsame, Htag.
  split; [exact H1|]. split; [exact H2|]. split; [exact H3|].
  intros bytes result w1 w2 w3 R L P.
  rewrite Htag.
  destruct (registry.ChartMeta result) as [meta|] eqn:Hm.
  - destruct (serve_same World backend config a http.newResponseWriter p p
                eq_refl) as (E & _ & _).
    rewrite <- E.
    exact (serveDigest_success World backend config a p bytes result meta
             w1 w2 w3 R L P Hm).
  - exact (proj2 (serve_nil_meta World backend config a
                    http.newResponseWriter p bytes result w1 w2 w3
                    R L P Hm)).
Qed.




(** ** Building the index *)

(** C10.  When the listing consists of images that parse, followed by an
    entry on which the build stops (an error of the iterator, or an image
    whose name does not parse), [initDB] returns the error of that entry
    and leaves in the index what it held before followed by the assets of
    the images that preceded the entry: nothing is rolled back.  Started on
    the empty index of a fresh process, the index holds exactly those
    assets. *)
Theorem initDB_failure_keeps_prefix (lv : LoopVar) (config : Config)
    (client : ArtifactRegistryClient) (imgs : list pb.DockerImage)
    (views : list AssetView) (bad : result pb.DockerImage)
    (rest : DockerImageIterator) (e : error) :
  (forall path, formatPath config = Ok path ->
                client path = map Ok imgs ++ bad :: rest) ->
  map (assetOfImage lv) imgs = map Some views ->
  failsWith bad e ->
  (forall m, wfMemory m ->
             fst (initDB lv config client m) = Some e /\
             snapshot (snd (initDB lv config client m))
             = snapshot m ++ views) /\
  fst (initDB lv config client initialMemory) = Some e /\
  snapshot (snd (initDB lv config client initialMemory)) = views.
Proof.
  intros Hlist Hv Hbad.
  assert (G : forall m, wfMemory m ->
             fst (initDB lv config client m) = Some e /\
             snapshot (snd (initDB lv config client m))
             = snapshot m ++ views).
  { intros m Hwf.
    destruct (initDB_formatPath lv config client m) as (path & Hp & ->).
    rewrite (Hlist path Hp).
    destruct (initDBLoop_app lv imgs views m Hv Hwf) as (m1 & _ & Hs & Hrun).
    rewrite Hrun, (initDBLoop_fails lv bad e rest m1 Hbad). now split. }
  split; [exact G|]. exact (G initialMemory wfMemory_initial).
Qed.

Lemma initDB_failure_keeps_prefix_witness :
  fst (initDB PerIteration Scenario.config Scenario.clientBroken
         initialMemory) = Some "invalid name and SHA format" /\
  snapshot (snd (initDB PerIteration Scenario.config Scenario.clientBroken
                   initialMemory))
  = [ {| vName := "b"; vSHA := "sha256:1"; vRawName := "a/b@sha256:1";
         vURI := "registry.example/a/b@sha256:1";
         vMediaType := "application/vnd.oci.image.manifest";
         vTags := ["v1"] |};
      {| vName := "d"; vSHA := "sha256:2"; vRawName := "a/d@sha256:2";
         vURI := "registry.example/a/d@sha256:2";
         vMediaType := "application/vnd.oci.image.manifest";
         vTags := ["v1"; "latest"] |} ].
Proof.
  apply (initDB_failure_keeps_prefix PerIteration Scenario.config
           Scenario.clientBroken [Scenario.image; Scenario.tagged] _
           (Ok Scenario.nameless) [Ok Scenario.twin]
           "invalid name and SHA format").
  - intros path _. reflexivity.
  - reflexivity.
  - right. exists Scenario.nameless. split; reflexivity.
Defined.

Example initDB_interrupted_listing :
  fst (initDB PerIteration Scenario.config Scenario.clientInterrupted
         initialMemory) = Some "rpc error: code = Unavailable" /\
  length (Assets (RepositoryDB
            (snd (initDB PerIteration Scenario.config
                    Scenario.clientInterrupted initialMemory)))) = 1.
Proof. split; reflexivity. Qed.




(** With one loop variable for the whole loop (before Go 1.22) every
    pointer of the asset denotes that variable, which holds the last tag
    when the loop ends. *)
Example initDB_tags_shared_variable :
  snapshot (snd (initDB PerLoop Scenario.config Scenario.clientTagged
                   initialMemory))
  = [ {| vName := "d"; vSHA := "sha256:2"; vRawName := "a/d@sha256:2";
         vURI := "registry.example/a/d@sha256:2";
         vMediaType := "application/vnd.oci.image.manifest";
         vTags := ["latest"; "latest"] |} ].
Proof. reflexivity. Qed.

(** ** Resolution by digest *)

(** The claim of C3 fails as stated.  Two listed images share the trailing
    segment [b@sha256:1]; both assets enter the index, and the lookup by
    [("b", "sha256:1")] returns the first one, never the second. *)
Lemma digest_lookup_shadowed :
  let m := snd (initDB PerIteration Scenario.config Scenario.clientTwins
                  initialMemory) in
  let second := {| Name := "b"; SHA := "sha256:1";
                   RawName := "c/b@sha256:1";
                   URI := "registry.example/c/b@sha256:1";
                   MediaType := "application/vnd.oci.image.manifest";
                   Tags := [1] |} in
  fst (initDB PerIteration Scenario.config Scenario.clientTwins
         initialMemory) = None /\
  In second (Assets (RepositoryDB m)) /\
  extractNameAndSha (RawName second) = Ok (Name second, SHA second) /\
  lookupByDigest m (Name second) (SHA second) <> Some second.
Proof.
  cbv zeta. split; [reflexivity|]. split; [right; left; reflexivity|].
  split; [reflexivity|]. vm_compute. discriminate.
Qed.

(** C3, amended.  Every asset that a build from the empty index leaves in
    the index has a raw name of the form [pre/name@digest] with its own
    name and digest.  The digest route serves the asset of
    [lookupByDigest]; for the name and the digest of an indexed asset this
    is the first asset of the index with that name and that digest, and it
    is the asset itself when no other asset of the index has both. *)
Theorem digest_lookup_roundtrip (lv : LoopVar) (config : Config)
    (client : ArtifactRegistryClient) (e : option error) (m' : Memory)
    (a : Asset) :
  initDB lv config client initialMemory = (e, m') ->
  In a (Assets (RepositoryDB m')) ->
  (exists pre, RawName a = (pre ++ "/" ++ Name a ++ "@" ++ SHA a)%string) /\
  extractNameAndSha (RawName a) = Ok (Name a, SHA a) /\
  (exists first,
      lookupByDigest m' (Name a) (SHA a) = Some first /\
      Name first = Name a /\ SHA first = SHA a /\
      firstThat (matchesDigest (Name a) (SHA a))
                (Assets (RepositoryDB m')) first) /\
  ((forall b, In b (Assets (RepositoryDB m')) ->
              Name b = Name a -> SHA b = SHA a -> b = a) ->
   lookupByDigest m' (Name a) (SHA a) = Some a).
Proof.
  intros Hbuild Hin.
  assert (Hparsed : extractNameAndSha (RawName a) = Ok (Name a, SHA a)).
  { destruct (initDB_formatPath lv config client initialMemory)
      as (path & _ & Hrun).
    rewrite Hrun in Hbuild.
    destruct (initDBLoop_outcome lv (client path) initialMemory
                wfMemory_initial)
      as (imgs & views & tail & _ & Hv & _ & Hs & _).
    rewrite Hbuild in Hs. simpl in Hs.
    pose proof (assetOfImage_parsed lv imgs views Hv) as Hall.
    rewrite Forall_forall in Hall.
    apply (Hall (view (heap m') a)).
    rewrite <- Hs. unfold snapshot. now apply in_map. }
  assert (Hfound : exists first,
             lookupByDigest m' (Name a) (SHA a) = Some first).
  { unfold lookupByDigest.
    destruct (find _ _) as [first|] eqn:F; [now exists first|].
    exfalso. pose proof (find_none _ _ F a Hin) as Hno.
    assert (matchesDigest (Name a) (SHA a) a = true)
      by now apply matchesDigest_iff.
    congruence. }
  destruct Hfound as (first & Hfirst).
  pose proof Hfirst as Hsome. unfold lookupByDigest in Hsome.
  apply find_some in Hsome. destruct Hsome as [Hfin Hfm].
  apply matchesDigest_iff in Hfm. destruct Hfm as [Hn Hs].
  split; [|split; [exact Hparsed|split]].
  - destruct (extract_ok_inv _ _ _ Hparsed) as (pre & Hraw & _).
    exists pre. exact Hraw.
  - exists first. repeat split; try assumption.
    now apply find_firstThat.
  - intros Huniq. rewrite Hfirst. f_equal. now apply Huniq.
Qed.

Lemma digest_lookup_roundtrip_witness :
  let a := {| Name := "b"; SHA := "sha256:1"; RawName := "a/b@sha256:1";
              URI := "registry.example/a/b@sha256:1";
              MediaType := "application/vnd.oci.image.manifest";
              Tags := [0] |} in
  extractNameAndSha (RawName a) = Ok (Name a, SHA a) /\
  lookupByDigest Scenario.memory (Name a) (SHA a) = Some a.
Proof.
  intros a.
  pose proof (digest_lookup_roundtrip PerIteration Scenario.config
                Scenario.client None Scenario.memory a eq_refl
                (or_introl eq_refl)) as (_ & Hparse & _ & Huniq).
  split; [exact Hparse|].
  apply Huniq. intros b [<-|[]] _ _. reflexivity.
Defined.

(** ** Building twice *)

(** The claim of C7 fails as stated.  [initDB] appends to [RepositoryDB]
    without clearing it: after a second build over the same listing the
    index holds two assets where the first build left one. *)
Lemma initDB_twice_differs :
  let first := initDB PerIteration Scenario.config Scenario.client
                 initialMemory in
  let second := initDB PerIteration Scenario.config Scenario.client
                  (snd first) in
  fst first = None /\ fst second = None /\
  length (snapshot (snd first)) = 1 /\
  length (snapshot (snd second)) = 2 /\
  snapshot (snd second) <> snapshot (snd first).
Proof.
  cbv zeta. repeat split. vm_compute. discriminate.
Qed.

(** C7, amended.  A build that completes from the empty index leaves the
    same ordered sequence of assets whatever string variables the process
    had declared before.  A second build over the same listing, run on the
    index that the first one left, completes as well and appends: the index
    then holds the sequence of the first build followed by an equal copy of
    it, element for element and in the same order. *)
Theorem initDB_twice_appends (lv : LoopVar) (config : Config)
    (client : ArtifactRegistryClient) (m1 : Memory) :
  initDB lv config client initialMemory = (None, m1) ->
  (forall m0, Assets (RepositoryDB m0) = [] ->
              fst (initDB lv config client m0) = None /\
              snapshot (snd (initDB lv config client m0)) = snapshot m1) /\
  fst (initDB lv config client m1) = None /\
  snapshot (snd (initDB lv config client m1)) = snapshot m1 ++ snapshot m1.
Proof.
  intros H.
  destruct (initDB_complete lv config client initialMemory m1
              wfMemory_initial H) as (imgs & views & Hlist & Hv & Hwf1 & Hs).
  simpl in Hs.
  assert (G : forall m, wfMemory m ->
             fst (initDB lv config client m) = None /\
             snapshot (snd (initDB lv config client m))
             = snapshot m ++ views).
  { intros m Hwf.
    destruct (initDB_formatPath lv config client m) as (path & Hp & ->).
    rewrite (Hlist path Hp).
    destruct (initDBLoop_app lv imgs views m Hv Hwf) as (m2 & _ & Hs2 & Hrun).
    specialize (Hrun []). rewrite app_nil_r in Hrun. rewrite Hrun.
    now split. }
  split.
  - intros m0 Hempty.
    assert (Hwf0 : wfMemory m0) by (unfold wfMemory; rewrite Hempty; constructor).
    destruct (G m0 Hwf0) as [G1 G2].
    split; [assumption|]. rewrite G2, Hs. unfold snapshot.
    now rewrite Hempty.
  - destruct (G m1 Hwf1) as [G1 G2]. split; [assumption|].
    now rewrite G2, Hs.
Qed.

Lemma initDB_twice_appends_witness :
  fst (initDB PerIteration Scenario.config Scenario.client Scenario.memory)
  = None /\
  snapshot (snd (initDB PerIteration Scenario.config Scenario.client
                   Scenario.memory))
  = snapshot Scenario.memory ++ snapshot Scenario.memory.
Proof.
  exact (proj2 (initDB_twice_appends PerIteration Scenario.config
                  Scenario.client Scenario.memory eq_refl)).
Defined.

(** * Further properties of the code *)

(** ** Strings *)

Lemma string_app_assoc (a b c : string) :
  ((a ++ b) ++ c = a ++ (b ++ c))%string.
Proof.
  induction a as [|x a IH]; simpl; [reflexivity|]. now rewrite IH.
Qed.

Lemma HasPrefix_slash_false (s : string) :
  strings.Count "/" s = 0 -> strings.HasPrefix s "/" = false.
Proof.
  destruct s as [|x s]; simpl; [reflexivity|].
  destruct (Ascii.eqb x "/"); [discriminate|reflexivity].
Qed.

(** ** Configuration *)

(** X1.  [newConfig] succeeds exactly when [PROJECT], [REPOSITORY] and
    [GOOGLE_APPLICATION_CREDENTIALS] are set.  The configuration it returns
    carries these three values, the region and the port of the environment
    or their defaults, and has no empty field; its port is the address
    that [newServer] listens on. *)
Theorem newConfig_complete (getenv : string -> string) :
  ((exists config, newConfig getenv = Ok config) <->
   getenv "PROJECT" <> EmptyString /\
   getenv "REPOSITORY" <> EmptyString /\
   getenv "GOOGLE_APPLICATION_CREDENTIALS" <> EmptyString) /\
  (forall config,
      newConfig getenv = Ok config ->
      Project config = getenv "PROJECT" /\
      Repository_ config = getenv "REPOSITORY" /\
      Credential config = getenv "GOOGLE_APPLICATION_CREDENTIALS" /\
      (getenv "REGION" = EmptyString -> Region config = "us-central1") /\
      (getenv "REGION" <> EmptyString -> Region config = getenv "REGION") /\
      (getenv "PORT" = EmptyString -> Port config = ":8080") /\
      (getenv "PORT" <> EmptyString -> Port config = getenv "PORT") /\
      Port config = Addr (newServer getenv) /\
      Project config <> EmptyString /\ Repository_ config <> EmptyString /\
      Region config <> EmptyString /\ Port config <> EmptyString /\
      Credential config <> EmptyString).
Proof.
  unfold newConfig, newServer.
  destruct (String.eqb (getenv "PROJECT") EmptyString) eqn:P.
  { apply String.eqb_eq in P. split.
    - split; [intros [c H]; discriminate|]. intros (H & _). contradiction.
    - intros c H. discriminate. }
  destruct (String.eqb (getenv "REPOSITORY") EmptyString) eqn:R.
  { apply String.eqb_eq in R. split.
    - split; [intros [c H]; discriminate|]. intros (_ & H & _). contradiction.
    - intros c H. discriminate. }
  destruct (String.eqb (getenv "GOOGLE_APPLICATION_CREDENTIALS") EmptyString)
    eqn:C.
  { apply String.eqb_eq in C. split.
    - split; [intros [c H]; discriminate|]. intros (_ & _ & H). contradiction.
    - intros c H. discriminate. }
  apply String.eqb_neq in P, R, C. split.
  - split; [intros _; now repeat split|]. intros _. eexists. reflexivity.
  - intros c [= <-]. simpl.
    destruct (String.eqb_spec (getenv "REGION") EmptyString) as [G|G];
      destruct (String.eqb_spec (getenv "PORT") EmptyString) as [T|T];
      repeat split; try assumption; try reflexivity; try discriminate;
      try (intros H; contradiction); try (intros H; congruence).
Qed.

Lemma newConfig_complete_witness :
  exists config,
    newConfig Deployment.environment = Ok config /\
    Region config = "us-central1" /\ Port config = ":8080".
Proof.
  destruct (proj2 (proj1 (newConfig_complete Deployment.environment)))
    as [config H].
  - repeat split; discriminate.
  - exists config. split; [exact H|].
    destruct (proj2 (newConfig_complete Deployment.environment) config H)
      as (_ & _ & _ & Hr & _ & Hp & _).
    split; [now apply Hr|now apply Hp].
Defined.

(** ** Resource names *)

(** X2.  The two gateways build the same resource names: for an environment
    from which [newConfig] succeeds, [formatPath] of the metadata gateway
    returns the parent that [formatPath] of the index-backed gateway
    returns for the configuration, followed by [/dockerImages/] and the
    path without its leading slash, if it has one. *)
Theorem formatPath_agree (World : Type) (backend : metadata.Backend World)
    (config : Config) (path : string) :
  newConfig (metadata.Getenv World backend) = Ok config ->
  exists parent,
    formatPath config = Ok parent /\
    metadata.formatPath World backend path =
    Ok (parent ++ "/dockerImages/"
          ++ (if strings.HasPrefix path "/" then metadata.dropFirst path
              else path))%string.
Proof.
  unfold newConfig, metadata.formatPath, formatPath.
  destruct (String.eqb (metadata.Getenv World backend "PROJECT") EmptyString);
    [discriminate|].
  destruct (String.eqb (metadata.Getenv World backend "REPOSITORY")
              EmptyString); [discriminate|].
  destruct (String.eqb
              (metadata.Getenv World backend "GOOGLE_APPLICATION_CREDENTIALS")
              EmptyString); [discriminate|].
  intros [= <-]. eexists. split; [reflexivity|]. simpl.
  do 2 f_equal. rewrite !string_app_assoc. simpl.
  do 3 (f_equal; try rewrite !string_app_assoc; simpl).
Qed.

Lemma formatPath_agree_witness :
  metadata.formatPath unit Deployment.registry "/b@sha256:1" =
  Ok "projects/p/locations/us-central1/repositories/r/dockerImages/b@sha256:1".
Proof.
  destruct (formatPath_agree unit Deployment.registry _ "/b@sha256:1"
              eq_refl) as (parent & Hp & H).
  injection Hp as <-. exact H.
Defined.

(** X3.  The resource name that the metadata gateway builds for the path
    [name@digest], with or without a leading slash, is parsed back by
    [extractNameAndSha] into that name and that digest, provided neither
    holds a [/] or an [@] and the project and the repository are set. *)
Theorem resource_name_roundtrip (World : Type)
    (backend : metadata.Backend World) (name digest : string) :
  metadata.Getenv World backend "PROJECT" <> EmptyString ->
  metadata.Getenv World backend "REPOSITORY" <> EmptyString ->
  strings.Count "/" name = 0 -> strings.Count "/" digest = 0 ->
  strings.Count "@" name = 0 -> strings.Count "@" digest = 0 ->
  exists formatted,
    metadata.formatPath World backend (name ++ "@" ++ digest) = Ok formatted
    /\ metadata.formatPath World backend ("/" ++ name ++ "@" ++ digest)
       = Ok formatted
    /\ extractNameAndSha formatted = Ok (name, digest).
Proof.
  intros P R Hn Hd Hn' Hd'.
  assert (Hseg : strings.Count "/" (name ++ "@" ++ digest) = 0).
  { rewrite Count_app. simpl. lia. }
  unfold metadata.formatPath.
  destruct (String.eqb_spec (metadata.Getenv World backend "PROJECT")
              EmptyString) as [E|_]; [contradiction|].
  destruct (String.eqb_spec (metadata.Getenv World backend "REPOSITORY")
              EmptyString) as [E|_]; [contradiction|].
  rewrite (HasPrefix_slash_false _ Hseg).
  change (strings.HasPrefix ("/" ++ name ++ "@" ++ digest) "/") with true.
  cbv iota. change (metadata.dropFirst ("/" ++ name ++ "@" ++ digest))
    with (name ++ "@" ++ digest)%string.
  eexists. split; [reflexivity|]. split; [reflexivity|].
  set (region := if String.eqb (metadata.Getenv World backend "REGION")
                      EmptyString
                 then "us-central1"
                 else metadata.Getenv World backend "REGION").
  replace ("projects/" ++ metadata.Getenv World backend "PROJECT"
             ++ "/locations/" ++ region ++ "/repositories/"
             ++ metadata.Getenv World backend "REPOSITORY"
             ++ "/dockerImages/" ++ name ++ "@" ++ digest)%string
    with (("projects/" ++ metadata.Getenv World backend "PROJECT"
             ++ "/locations/" ++ region ++ "/repositories/"
             ++ metadata.Getenv World backend "REPOSITORY"
             ++ "/dockerImages")
            ++ String "/" (name ++ String "@" digest))%string.
  - now apply extract_trailing_ok.
  - rewrite !string_app_assoc. simpl.
    do 3 (f_equal; try rewrite !string_app_assoc; simpl).
Qed.

Lemma resource_name_roundtrip_witness :
  exists formatted,
    metadata.formatPath unit Deployment.registry ("b" ++ "@" ++ "sha256:1")
    = Ok formatted
    /\ metadata.formatPath unit Deployment.registry
         ("/" ++ "b" ++ "@" ++ "sha256:1") = Ok formatted
    /\ extractNameAndSha formatted = Ok ("b", "sha256:1").
Proof.
  apply (resource_name_roundtrip unit Deployment.registry "b" "sha256:1");
    try reflexivity; discriminate.
Defined.

(** X4.  [extractNameAndSha] reads the segment after the last [/] only:
    two identifiers with the same trailing segment give the same result,
    whatever precedes the last [/]. *)
Theorem extractNameAndSha_ignores_parent (pre pre' seg : string) :
  strings.Count "/" seg = 0 ->
  extractNameAndSha (pre ++ "/" ++ seg)
  = extractNameAndSha (pre' ++ "/" ++ seg).
Proof.
  intros H. change ("/" ++ seg)%string with (String "/" seg).
  now rewrite !(extract_trailing _ seg H).
Qed.

Lemma extractNameAndSha_ignores_parent_witness :
  extractNameAndSha ("projects/p/dockerImages" ++ "/" ++ "b@sha256:1")
  = extractNameAndSha ("c" ++ "/" ++ "b@sha256:1").
Proof.
  apply (extractNameAndSha_ignores_parent "projects/p/dockerImages" "c"
           "b@sha256:1").
  reflexivity.
Defined.

(** ** The metadata gateway, continued *)

(** X5.  A leading slash of the path makes no difference to
    [getImageMetadataReader]: for a path that is not empty and does not
    start with [/], the calls with the path and with [/] before it run
    alike. *)
Theorem getImageMetadataReader_leading_slash (World : Type)
    (backend : metadata.Backend World) (path : string) (p : Proc World) :
  path <> EmptyString -> strings.HasPrefix path "/" = false ->
  metadata.getImageMetadataReader backend ("/" ++ path) p
  = metadata.getImageMetadataReader backend path p.
Proof.
  intros Hne Hp. unfold metadata.getImageMetadataReader.
  destruct (String.eqb_spec path EmptyString) as [E|_]; [contradiction|].
  rewrite Hp. reflexivity.
Qed.

Lemma getImageMetadataReader_leading_slash_witness :
  metadata.getImageMetadataReader Deployment.registry ("/" ++ "b@sha256:1")
    Scenario.start
  = metadata.getImageMetadataReader Deployment.registry "b@sha256:1"
      Scenario.start.
Proof.
  apply (getImageMetadataReader_leading_slash unit Deployment.registry
           "b@sha256:1" Scenario.start); [discriminate|reflexivity].
Defined.

(** The ways [getImageMetadataReader] runs. *)
Lemma getImageMetadataReader_runs (World : Type)
    (backend : metadata.Backend World) (path : string) (p : Proc World) :
  exists r p' evs,
    metadata.getImageMetadataReader backend path p = Return r p' /\
    trace p' = trace p ++ evs /\
    ((path = EmptyString /\ evs = [] /\ r = Err "missing path"
      /\ world p' = world p) \/
     (path <> EmptyString /\ evs = [EvNewClient] /\
      exists e, fst (metadata.NewClient World backend (world p)) = Some e
                /\ r = Err e) \/
     (path <> EmptyString /\
      fst (metadata.NewClient World backend (world p)) = None /\
      let slashed := if strings.HasPrefix path "/" then path
                     else ("/" ++ path)%string in
      match metadata.formatPath World backend slashed with
      | Err e => evs = [EvNewClient; EvClose] /\ r = Err e
      | Ok name =>
          evs = [EvNewClient; EvLog ("formattedPath: " ++ name)%string;
                 EvGetDockerImage name; EvClose] /\
          exists w1,
            metadata.NewClient World backend (world p) = (None, w1) /\
            r = match fst (metadata.GetDockerImage World backend name w1)
                with
                | Err e => Err e
                | Ok resp => metadata.Marshal World backend resp
                end
      end)).
Proof.
  unfold metadata.getImageMetadataReader.
  destruct (String.eqb_spec path EmptyString) as [E|E].
  { exists (Err "missing path"), p, []. rewrite app_nil_r.
    repeat split. left. now repeat split. }
  unfold bind, call, ret, log_Println, emit.
  destruct (metadata.NewClient World backend (world p)) as [[e|] w1] eqn:N.
  { eexists _, _, [EvNewClient]. cbn [fst]. repeat split. right. left.
    repeat split; [assumption|]. now exists e. }
  cbn [fst].
  set (slashed := if strings.HasPrefix path "/" then path
                  else ("/" ++ path)%string).
  assert (S : (if negb (strings.HasPrefix path "/")
               then ("/" ++ path)%string else path) = slashed)
    by (unfold slashed; destruct (strings.HasPrefix path "/"); reflexivity).
  rewrite S. clearbody slashed. clear S.
  destruct (metadata.formatPath World backend slashed) as [name|e] eqn:F;
    cbn [world trace].
  - destruct (metadata.GetDockerImage World backend name w1)
      as [[resp|e] w2] eqn:G; cbn [world trace].
    + destruct (metadata.Marshal World backend resp) as [body|e] eqn:Mr;
        cbn [world trace];
        destruct (metadata.Close World backend w2) as [u w3];
        eexists _, _, _; (split; [reflexivity|]); cbn [trace];
        (split; [rewrite <- !app_assoc; reflexivity|]); right; right;
        (split; [assumption|]); (split; [reflexivity|]);
        (split; [reflexivity|]); exists w1;
        (split; [reflexivity|]); rewrite G; cbn [fst]; now rewrite Mr.
    + destruct (metadata.Close World backend w2) as [u w3].
      eexists _, _, _. split; [reflexivity|]. cbn [trace].
      split; [rewrite <- !app_assoc; reflexivity|]. right. right.
      split; [assumption|]. split; [reflexivity|].
      split; [reflexivity|]. exists w1. split; [reflexivity|].
      now rewrite G.
  - destruct (metadata.Close World backend w1) as [u w3].
    eexists _, _, _. split; [reflexivity|]. cbn [trace].
    split; [rewrite <- !app_assoc; reflexivity|]. right. right.
    split; [assumption|]. split; [reflexivity|].
    split; reflexivity.
Qed.

(** X6.  [getImageMetadataReader] always returns, and it closes every
    client that it creates: with an empty path it calls nothing; when the
    creation of the client fails, that call is the only one; otherwise the
    calls start with the creation and end with [Close], with no other
    creation or [Close] in between. *)
Theorem getImageMetadataReader_closes_client (World : Type)
    (backend : metadata.Backend World) (path : string) (p : Proc World) :
  exists r p' evs,
    metadata.getImageMetadataReader backend path p = Return r p' /\
    trace p' = trace p ++ evs /\
    (path = EmptyString -> evs = [] /\ r = Err "missing path") /\
    (path <> EmptyString ->
     fst (metadata.NewClient World backend (world p)) <> None ->
     evs = [EvNewClient]) /\
    (path <> EmptyString ->
     fst (metadata.NewClient World backend (world p)) = None ->
     exists middle,
       evs = EvNewClient :: middle ++ [EvClose] /\
       ~ In EvNewClient middle /\ ~ In EvClose middle).
Proof.
  destruct (getImageMetadataReader_runs World backend path p)
    as (r & p' & evs & Hrun & Htr & Hcase).
  exists r, p', evs. split; [assumption|]. split; [assumption|].
  destruct Hcase as [(He & -> & -> & _)|[(Hne & -> & e & Hn & ->)
                                        |(Hne & Hn & Hshape)]].
  - split; [now split|]. split; intros H; contradiction.
  - split; [intros H; contradiction|]. split; [reflexivity|].
    intros _ H. rewrite H in Hn. discriminate.
  - split; [intros H; contradiction|]. split.
    + intros _ H. contradiction.
    + intros _ _. cbv zeta in Hshape.
      destruct (metadata.formatPath World backend _) as [name|e].
      * destruct Hshape as (-> & _).
        exists [EvLog ("formattedPath: " ++ name)%string;
                EvGetDockerImage name].
        split; [reflexivity|].
        split; intros [H|[H|[]]]; discriminate.
      * destruct Hshape as (-> & _). exists []. split; [reflexivity|].
        split; intros [].
Qed.

(** X7.  The handler of the metadata gateway never ends the process and
    always answers: 404 for a path that contains [.ico]; otherwise 500
    with the message of the error when [getImageMetadataReader] fails, and
    200 with the document as body when it succeeds. *)
Theorem getAssetsHandler_responds (World : Type)
    (backend : metadata.Backend World) (path : string) (p : Proc World) :
  let o := metadata.getAssetsHandler backend path http.newResponseWriter p in
  exited o = false /\
  exists resp,
    clientSees o = Some resp /\
    ((strings.Contains path ".ico" = true /\ http.StatusCode resp = 404) \/
     (strings.Contains path ".ico" = false /\
      exists r p',
        metadata.getImageMetadataReader backend path p = Return r p' /\
        finalProc o = p' /\
        resp = match r with
               | Err e => {| http.StatusCode := 500;
                             http.ResponseHeader := []; http.Body := e |}
               | Ok content => {| http.StatusCode := 200;
                                  http.ResponseHeader := [];
                                  http.Body := content |}
               end)).
Proof.
  cbv zeta. unfold metadata.getAssetsHandler.
  destruct (strings.Contains path ".ico") eqn:Hico.
  - split; [reflexivity|]. eexists. split; [reflexivity|]. left. now split.
  - destruct (getImageMetadataReader_runs World backend path p)
      as (r & p' & evs & Hrun & _).
    unfold bind. rewrite Hrun.
    destruct r as [content|e].
    + split; [destruct content; reflexivity|].
      exists {| http.StatusCode := 200; http.ResponseHeader := [];
                http.Body := content |}.
      split; [destruct content; reflexivity|]. right.
      split; [reflexivity|]. exists (Ok content), p'.
      split; [reflexivity|]. split; [destruct content|]; reflexivity.
    + split; [reflexivity|]. eexists. split; [reflexivity|]. right.
      split; [reflexivity|]. exists (Err e), p'. now repeat split.
Qed.

(** ** The allow-list of the metadata gateway *)

Lemma authLoop_In (input : string) (auths : list string) :
  metadata.authLoop input auths = true <-> In input auths.
Proof.
  induction auths as [|auth rest IH]; simpl.
  - split; [discriminate|intros []].
  - destruct (String.eqb_spec input auth) as [->|Hne].
    + split; [now left|reflexivity].
    + rewrite IH. split; [now right|]. intros [H|H]; [congruence|assumption].
Qed.

(** A list of pieces between separators, with one separator before and one
    after: every piece stands between two separators. *)
Lemma concat_piece (sep : ascii) (l1 : list string) :
  forall x l2,
  exists pre post,
    String sep (String.concat (String sep EmptyString) (l1 ++ x :: l2)
                  ++ String sep EmptyString)%string
    = (pre ++ String sep (x ++ String sep post))%string.
Proof.
  induction l1 as [|y l1 IH]; intros x l2.
  - destruct l2 as [|z l2].
    + exists EmptyString, EmptyString. reflexivity.
    + exists EmptyString,
        (String.concat (String sep EmptyString) (z :: l2)
           ++ String sep EmptyString)%string.
      cbn [app String.concat append]. now rewrite string_app_assoc.
  - destruct (IH x l2) as (pre & post & H).
    exists (String sep y ++ pre)%string, post.
    cbn [app]. destruct (l1 ++ x :: l2) as [|z rest] eqn:E.
    { symmetry in E. now apply app_cons_not_nil in E. }
    change (String.concat (String sep EmptyString) (y :: z :: rest))
      with (y ++ String sep EmptyString
              ++ String.concat (String sep EmptyString) (z :: rest))%string.
    rewrite !string_app_assoc. cbn [append].
    f_equal. f_equal. exact H.
Qed.

Lemma Split_concat (sep : ascii) (s : string) :
  String.concat (String sep EmptyString) (strings.Split s sep) = s.
Proof.
  induction s as [|x s IH]; [reflexivity|]. cbn [strings.Split].
  destruct (Ascii.eqb_spec x sep) as [->|Hne];
    destruct (strings.Split s sep) as [|h t] eqn:E;
    try (now apply Split_nonempty in E);
    rewrite <- IH; destruct t; reflexivity.
Qed.

(** The pieces of [Split] are the separator-free strings that stand between
    two separators of the string, once it is put between two separators. *)
Lemma In_Split_iff (sep : ascii) (s x : string) :
  In x (strings.Split s sep) <->
  strings.Count sep x = 0 /\
  exists pre post,
    String sep (s ++ String sep EmptyString)%string
    = (pre ++ String sep (x ++ String sep post))%string.
Proof.
  split.
  - intros Hin. split.
    + pose proof (Split_pieces sep s) as Hall.
      rewrite Forall_forall in Hall. now apply Hall.
    + destruct (in_split _ _ Hin) as (l1 & l2 & Hl).
      destruct (concat_piece sep l1 x l2) as (pre & post & H).
      rewrite <- Hl, Split_concat in H. now exists pre, post.
  - intros (Hx & pre & post & H).
    assert (L : strings.Split
                  (String sep (s ++ String sep EmptyString)) sep
                = EmptyString :: strings.Split s sep ++ [EmptyString]).
    { change (String sep (s ++ String sep EmptyString))
        with (EmptyString ++ String sep (s ++ String sep EmptyString))%string.
      rewrite Split_app_sep. cbn [strings.Split app].
      now rewrite Split_app_sep. }
    rewrite H, Split_app_sep, Split_app_sep, (Split_nosep sep x Hx) in L.
    destruct (strings.Split pre sep) as [|p0 P] eqn:EP.
    { now apply Split_nonempty in EP. }
    destruct (exists_last (Split_nonempty sep post)) as (Q & q & EQ).
    rewrite EQ in L. cbn [app] in L. injection L as _ L.
    change (P ++ x :: Q ++ [q]) with (P ++ (x :: Q) ++ [q]) in L.
    rewrite app_assoc in L. apply app_inj_tail in L. destruct L as [L _].
    rewrite <- L. apply in_or_app. right. now left.
Qed.

(** X8.  [isRequestAuthorized] always returns and leaves the outside world
    alone.  It answers [true] exactly when [AUTHS] is set and the input is
    one of its comma-separated entries: the input has no comma and stands
    between two commas of [,AUTHS,].  With [AUTHS] unset it logs "missing
    auths"; otherwise it logs nothing. *)
Theorem isRequestAuthorized_spec (World : Type)
    (backend : metadata.Backend World) (input : string) (p : Proc World) :
  let auths := metadata.Getenv World backend "AUTHS" in
  exists b p',
    metadata.isRequestAuthorized backend input p = Return b p' /\
    world p' = world p /\
    (b = true <->
     auths <> EmptyString /\ strings.Count "," input = 0 /\
     exists pre post,
       ("," ++ auths ++ ",")%string
       = (pre ++ "," ++ input ++ "," ++ post)%string) /\
    (auths = EmptyString -> trace p' = trace p ++ [EvLog "missing auths"]) /\
    (auths <> EmptyString -> trace p' = trace p).
Proof.
  cbv zeta. unfold metadata.isRequestAuthorized, metadata.getAuths.
  destruct (String.eqb_spec (metadata.Getenv World backend "AUTHS")
              EmptyString) as [E|E].
  - eexists _, _. split; [reflexivity|]. cbn [world trace].
    split; [reflexivity|]. split; [|split].
    + split; [discriminate|]. intros (H & _). contradiction.
    + intros _. reflexivity.
    + intros H. contradiction.
  - eexists _, _. split; [reflexivity|]. split; [reflexivity|].
    split; [|split].
    + rewrite authLoop_In, In_Split_iff. split.
      * intros (Hc & Hocc). split; [assumption|]. now split.
      * intros (_ & Hc & Hocc). now split.
    + intros H. contradiction.
    + intros _. reflexivity.
Qed.

Lemma isRequestAuthorized_spec_witness :
  exists p',
    metadata.isRequestAuthorized Deployment.registry "bob:b2" Scenario.start
    = Return true p'.
Proof.
  destruct (isRequestAuthorized_spec unit Deployment.registry "bob:b2"
              Scenario.start) as (b & p' & Hrun & _ & Hb & _).
  exists p'. rewrite Hrun.
  assert (b = true) as ->; [|reflexivity].
  apply Hb. split; [discriminate|]. split; [reflexivity|].
  exists ",alice:a1", EmptyString. reflexivity.
Defined.

(** ** The routes of the index-backed gateway, continued *)

(** X9.  The digest route logs the two parameters, then serves the asset of
    [lookupByDigest] or returns at once when there is none.
    [lookupByDigest] yields the first asset of the index whose name and
    digest are both the requested ones, and nothing exactly when no asset
    of the index has both. *)
Theorem digest_lookup_first_match (World : Type) (backend : Backend World)
    (config : Config) (m : Memory) (assetName assetSHA : string) :
  (forall w p,
      digestHandler World backend config m assetName assetSHA w p =
      let p' := {| world := world p;
                   trace := trace p
                     ++ [EvLog (assetName ++ " " ++ assetSHA)%string] |} in
      match lookupByDigest m assetName assetSHA with
      | Some asset => serveDigest World backend config asset w p'
      | None => Return w p'
      end) /\
  (forall a,
      lookupByDigest m assetName assetSHA = Some a <->
      exists before after,
        Assets (RepositoryDB m) = before ++ a :: after /\
        (Name a = assetName /\ SHA a = assetSHA) /\
        forall b, In b before -> ~ (Name b = assetName /\ SHA b = assetSHA))
  /\
  (lookupByDigest m assetName assetSHA = None <->
   forall b, In b (Assets (RepositoryDB m)) ->
             ~ (Name b = assetName /\ SHA b = assetSHA)).
Proof.
  split; [|split].
  - intros w p. apply digestHandler_lookup.
  - intros a. unfold lookupByDigest. rewrite find_firstThat.
    unfold firstThat.
    split; intros (before & after & Hl & Ha & Hb); exists before, after;
      (split; [assumption|]); split.
    + now apply matchesDigest_iff.
    + intros b Hin.
      apply (not_true_iff_false' _ _ (matchesDigest_iff _ _ b)).
      now apply Hb.
    + now apply matchesDigest_iff.
    + intros b Hin.
      apply (not_true_iff_false' _ _ (matchesDigest_iff _ _ b)).
      now apply Hb.
  - unfold lookupByDigest. rewrite find_none_iff.
    split; intros H b Hin;
      apply (not_true_iff_false' _ _ (matchesDigest_iff _ _ b));
      now apply H.
Qed.

(** X10.  In an index where no two assets share both name and digest, the
    asset that a tag resolves to is the one that its own digest resolves
    to: a request by tag and the request by the name and the digest of the
    asset found are served the same asset. *)
Theorem tag_then_digest_same_asset (m : Memory)
    (assetName assetTag : string) (a : Asset) :
  (forall b c, In b (Assets (RepositoryDB m)) ->
               In c (Assets (RepositoryDB m)) ->
               Name b = Name c -> SHA b = SHA c -> b = c) ->
  lookupByTag m assetName assetTag = Some a ->
  lookupByDigest m assetName (SHA a) = Some a.
Proof.
  intros Huniq Ht. unfold lookupByTag in Ht.
  apply find_some in Ht. destruct Ht as [Hin Hm].
  apply matchesTag_iff in Hm. destruct Hm as [Hn _].
  unfold lookupByDigest.
  destruct (find _ _) as [first|] eqn:F.
  - apply find_some in F. destruct F as [Hfin Hfm].
    apply matchesDigest_iff in Hfm. destruct Hfm as [Hfn Hfs].
    f_equal. apply Huniq; congruence.
  - exfalso. pose proof (find_none _ _ F a Hin) as Hno.
    assert (matchesDigest assetName (SHA a) a = true)
      by now apply matchesDigest_iff.
    congruence.
Qed.

Lemma tag_then_digest_same_asset_witness :
  exists a,
    lookupByTag Scenario.memory "b" "v1" = Some a /\
    lookupByDigest Scenario.memory "b" (SHA a) = Some a.
Proof.
  eexists. split; [reflexivity|].
  apply (tag_then_digest_same_asset Scenario.memory "b" "v1").
  - intros b c [<-|[]] [<-|[]] _ _. reflexivity.
  - reflexivity.
Defined.

Ltac in_cases :=
  repeat match goal with
         | H : In _ (_ :: _) |- _ => destruct H as [H|H]
         | H : In _ [] |- _ => destruct H
         | H : In _ (_ ++ _) |- _ => apply in_app_or in H; destruct H as [H|H]
         end.

(** The calls of the body of a route, for the asset it serves. *)
Lemma serveTag_calls (World : Type) (backend : Backend World)
    (config : Config) (a : Asset) (w : http.ResponseWriter)
    (p : Proc World) :
  exists evs,
    trace (finalProc (serveTag World backend config a w p)) = trace p ++ evs
    /\ orderlyCalls backend config (Some a) (world p) evs.
Proof.
  unfold serveTag, getCredential, nilMetaPanic, bind, call, ret, log_Fatal,
    log_Println, emit.
  destruct (ReadFile backend (Credential config) (world p))
    as [[bytes|e] w1] eqn:R; cbn [world trace finalProc].
  2: { eexists. split; [rewrite <- app_assoc; reflexivity|].
       unfold orderlyCalls. repeat split; try discriminate;
         intros; in_cases; try discriminate; congruence. }
  destruct (Login backend (URI a) "_json_key" bytes w1)
    as [[e|] w2] eqn:L; cbn [world trace finalProc].
  { eexists. split; [rewrite <- !app_assoc; reflexivity|].
    unfold orderlyCalls. repeat split; try discriminate;
      intros; in_cases; try discriminate; try congruence.
    injection H as <- <- <-. now exists a, w1. }
  destruct (Pull backend (URI a) w2) as [[result|e] w3] eqn:P;
    [destruct (registry.ChartMeta result) as [meta|]|];
    cbn [world trace finalProc];
    (eexists; split; [rewrite <- !app_assoc; reflexivity|]);
    unfold orderlyCalls; repeat split; try discriminate;
    intros; in_cases; try discriminate; try congruence;
    try (injection H as <- <- <-; now exists a, w1);
    try (injection H as <-; now exists a, bytes, w1, w2).
Qed.

Lemma serveDigest_calls (World : Type) (backend : Backend World)
    (config : Config) (a : Asset) (w : http.ResponseWriter)
    (p : Proc World) :
  exists evs,
    trace (finalProc (serveDigest World backend config a w p))
    = trace p ++ evs
    /\ orderlyCalls backend config (Some a) (world p) evs.
Proof.
  unfold serveDigest, getCredential, nilMetaPanic, bind, call, ret,
    log_Fatal, log_Println, emit.
  destruct (ReadFile backend (Credential config) (world p))
    as [[bytes|e] w1] eqn:R; cbn [world trace finalProc].
  2: { eexists. split; [rewrite <- app_assoc; reflexivity|].
       unfold orderlyCalls. repeat split; try discriminate;
         intros; in_cases; try discriminate; congruence. }
  destruct (Login backend (URI a) "_json_key" bytes w1)
    as [[e|] w2] eqn:L; cbn [world trace finalProc].
  { eexists. split; [rewrite <- !app_assoc; reflexivity|].
    unfold orderlyCalls. repeat split; try discriminate;
      intros; in_cases; try discriminate; try congruence.
    injection H as <- <- <-. now exists a, w1. }
  destruct (Pull backend (URI a) w2) as [[result|e] w3] eqn:P;
    [destruct (registry.ChartMeta result) as [meta|]|];
    cbn [world trace finalProc];
    (eexists; split; [rewrite <- !app_assoc; reflexivity|]);
    unfold orderlyCalls; repeat split; try discriminate;
    intros; in_cases; try discriminate; try congruence;
    try (injection H as <- <- <-; now exists a, w1);
    try (injection H as <-; now exists a, bytes, w1, w2).
Qed.

(** X11.  The calls of both routes are in order.  A request that resolves
    to no asset reads no file and calls no registry.  A request that
    resolves to an asset reads the credential file and nothing else, logs
    in only to the registry of that asset, as [_json_key] with the content
    of the file, and pulls only from that registry, after the login
    succeeded. *)
Theorem routes_calls_in_order (World : Type) (backend : Backend World)
    (config : Config) (m : Memory) (assetName second : string)
    (w : http.ResponseWriter) (p : Proc World) :
  (exists evs,
      trace (finalProc (digestHandler World backend config m assetName
                          second w p)) = trace p ++ evs /\
      orderlyCalls backend config (lookupByDigest m assetName second)
        (world p) evs) /\
  (exists evs,
      trace (finalProc (tagHandler World backend config m assetName
                          second w p)) = trace p ++ evs /\
      orderlyCalls backend config (lookupByTag m assetName second)
        (world p) evs).
Proof.
  split.
  - rewrite digestHandler_lookup. cbv zeta.
    destruct (lookupByDigest m assetName second) as [a|].
    + destruct (serveDigest_calls World backend config a w
                  {| world := world p;
                     trace := trace p
                       ++ [EvLog (assetName ++ " " ++ second)%string] |})
        as (evs & Htr & Hord & Hread & Hlogin & Hpull).
      cbn [world trace] in *.
      exists (EvLog (assetName ++ " " ++ second)%string :: evs).
      split; [rewrite Htr, <- app_assoc; reflexivity|].
      unfold orderlyCalls. split; [discriminate|]. split; [|split].
      * intros path [H|H]; [discriminate|]. now apply (Hread path).
      * intros u user c [H|H]; [discriminate|]. now apply Hlogin.
      * intros u [H|H]; [discriminate|]. now apply Hpull.
    + eexists. split; [reflexivity|]. unfold orderlyCalls.
      split; [intros _; constructor; [reflexivity|constructor]|].
      split; [|split]; intros; in_cases; discriminate.
  - rewrite tagHandler_lookup.
    destruct (lookupByTag m assetName second) as [a|].
    + apply serveTag_calls.
    + exists []. split; [now rewrite app_nil_r|]. unfold orderlyCalls.
      split; [intros _; constructor|].
      split; [|split]; intros; in_cases.
Qed.

(** ** The index build, continued *)

Lemma assetOfImage_fields (lv : LoopVar) (imgs : list pb.DockerImage) :
  forall views,
    map (assetOfImage lv) imgs = map Some views ->
    Forall2 (fun img v =>
               extractNameAndSha (pb.Name img) = Ok (vName v, vSHA v) /\
               vRawName v = pb.Name img /\ vURI v = pb.Uri img /\
               vMediaType v = pb.MediaType img /\
               vTags v = recordedTags lv (pb.Tags img)) imgs views.
Proof.
  induction imgs as [|img imgs IH]; intros [|v views] H; try discriminate;
    constructor.
  - simpl in H. injection H as H _. unfold assetOfImage in H.
    destruct (extractNameAndSha (pb.Name img)) as [[n s]|e]; [|discriminate].
    injection H as <-. now repeat split.
  - simpl in H. injection H as _ H. now apply IH.
Qed.

(** X12.  With one loop variable for the whole loop (a [go] directive
    below 1.22), a build that completes appends one asset per listed
    image, and all the tag pointers of an asset denote the same variable,
    which holds the last tag of the image: the tags of the asset read as
    that tag, as many times as the image has tags. *)
Theorem initDB_tags_alias_per_loop (config : Config)
    (client : ArtifactRegistryClient) (m m' : Memory) :
  wfMemory m ->
  initDB PerLoop config client m = (None, m') ->
  exists imgs views,
    (forall path, formatPath config = Ok path -> client path = map Ok imgs)
    /\ snapshot m' = snapshot m ++ views
    /\ Forall2 (fun img v =>
                  vRawName v = pb.Name img /\
                  length (vTags v) = length (pb.Tags img) /\
                  forall t, In t (vTags v) ->
                            t = last (pb.Tags img) EmptyString)
               imgs views.
Proof.
  intros Hwf H.
  destruct (initDB_complete PerLoop config client m m' Hwf H)
    as (imgs & views & Hlist & Hv & _ & Hs).
  exists imgs, views. split; [assumption|]. split; [assumption|].
  eapply Forall2_impl; [|exact (assetOfImage_fields PerLoop imgs views Hv)].
  intros img v (_ & Hraw & _ & _ & Htags). split; [assumption|].
  rewrite Htags. simpl. split; [apply repeat_length|].
  intros t Ht. now apply repeat_spec in Ht.
Qed.

Lemma initDB_tags_alias_per_loop_witness :
  exists imgs views,
    (forall path, formatPath Scenario.config = Ok path ->
                  Scenario.clientTagged path = map Ok imgs)
    /\ snapshot (snd (initDB PerLoop Scenario.config Scenario.clientTagged
                        initialMemory))
       = snapshot initialMemory ++ views
    /\ Forall2 (fun img v =>
                  vRawName v = pb.Name img /\
                  length (vTags v) = length (pb.Tags img) /\
                  forall t, In t (vTags v) ->
                            t = last (pb.Tags img) EmptyString)
               imgs views.
Proof.
  apply (initDB_tags_alias_per_loop Scenario.config Scenario.clientTagged
           initialMemory).
  - exact wfMemory_initial.
  - reflexivity.
Defined.

(** X13.  Whatever the listing and the meaning of the loop variable,
    [initDB] only appends: the assets that the index held read as before,
    and the new ones are those of the images that precede the first entry
    on which the build stops, in the order of the listing.  Each has the
    name and the digest parsed from the resource name of its image, the
    resource name, the URI and the media type of the image, and as many
    tags as the image.  The build returns no error exactly when it reached
    the end of the listing, and the error of the entry it stopped on
    otherwise. *)
Theorem initDB_appends_parsed_prefix (lv : LoopVar) (config : Config)
    (client : ArtifactRegistryClient) (m : Memory) :
  wfMemory m ->
  exists path imgs views tail,
    formatPath config = Ok path /\
    client path = map Ok imgs ++ tail /\
    snapshot (snd (initDB lv config client m)) = snapshot m ++ views /\
    wfMemory (snd (initDB lv config client m)) /\
    Forall2 (fun img v =>
               extractNameAndSha (pb.Name img) = Ok (vName v, vSHA v) /\
               vRawName v = pb.Name img /\ vURI v = pb.Uri img /\
               vMediaType v = pb.MediaType img /\
               length (vTags v) = length (pb.Tags img)) imgs views /\
    ((tail = [] /\ fst (initDB lv config client m) = None) \/
     (exists bad rest e,
         tail = bad :: rest /\ failsWith bad e /\
         fst (initDB lv config client m) = Some e)).
Proof.
  intros Hwf.
  destruct (initDB_formatPath lv config client m) as (path & Hp & ->).
  destruct (initDBLoop_outcome lv (client path) m Hwf)
    as (imgs & views & tail & Hit & Hv & Hwf' & Hs & Hend).
  exists path, imgs, views, tail. repeat split; try assumption.
  eapply Forall2_impl; [|exact (assetOfImage_fields lv imgs views Hv)].
  intros img v (H1 & H2 & H3 & H4 & H5). repeat split; try assumption.
  rewrite H5. destruct lv; simpl; [apply repeat_length|reflexivity].
Qed.

Lemma initDB_appends_parsed_prefix_witness :
  exists path imgs views tail,
    formatPath Scenario.config = Ok path /\
    Scenario.clientBroken path = map Ok imgs ++ tail /\
    snapshot (snd (initDB PerLoop Scenario.config Scenario.clientBroken
                     initialMemory)) = snapshot initialMemory ++ views /\
    wfMemory (snd (initDB PerLoop Scenario.config Scenario.clientBroken
                     initialMemory)) /\
    Forall2 (fun img v =>
               extractNameAndSha (pb.Name img) = Ok (vName v, vSHA v) /\
               vRawName v = pb.Name img /\ vURI v = pb.Uri img /\
               vMediaType v = pb.MediaType img /\
               length (vTags v) = length (pb.Tags img)) imgs views /\
    ((tail = [] /\
      fst (initDB PerLoop Scenario.config Scenario.clientBroken
             initialMemory) = None) \/
     (exists bad rest e,
         tail = bad :: rest /\ failsWith bad e /\
         fst (initDB PerLoop Scenario.config Scenario.clientBroken
                initialMemory) = Some e)).
Proof.
  apply (initDB_appends_parsed_prefix PerLoop Scenario.config
           Scenario.clientBroken initialMemory).
  exact wfMemory_initial.
Defined.

(** ** Start-up *)

(** X14.  [main] gets to register its routes only with a complete index:
    when [mainInit] returns, the configuration is the one of the
    environment, the index holds the assets of every entry of the listing,
    in order, and the only call made is the creation of the listing client.
    When the listing holds an entry on which the build stops, the process
    ends with the status 1 after logging "failed to init db. error: " and
    the error, and serves nothing. *)
Theorem mainInit_complete_index_or_exit (World : Type) (lv : LoopVar)
    (platform : Platform World) (p : Proc World) :
  (forall config client m' p',
      mainInit lv platform initialMemory p = Return (config, client, m') p'
      ->
      newConfig (Getenv platform) = Ok config /\
      NewRegistryClient platform = Ok client /\
      exists c w1 imgs views,
        NewArtifactRegistryClient platform (world p) = (Ok c, w1) /\
        (forall path, formatPath config = Ok path -> c path = map Ok imgs) /\
        map (assetOfImage lv) imgs = map Some views /\
        snapshot m' = views /\
        p' = {| world := w1; trace := trace p ++ [EvNewClient] |}) /\
  (forall config c w1 imgs views bad rest e,
      newConfig (Getenv platform) = Ok config ->
      NewArtifactRegistryClient platform (world p) = (Ok c, w1) ->
      (forall path, formatPath config = Ok path ->
                    c path = map Ok imgs ++ bad :: rest) ->
      map (assetOfImage lv) imgs = map Some views ->
      failsWith bad e ->
      mainInit lv platform initialMemory p =
      Exit 1 {| world := w1;
                trace := trace p
                  ++ [EvNewClient;
                      EvLog ("failed to init db. error: " ++ e)%string] |}).
Proof.
  split.
  - intros config client m' p'. unfold mainInit, bind, call, log_Fatal, ret.
    destruct (newConfig (Getenv platform)) as [cfg|e]; [|discriminate].
    destruct (NewArtifactRegistryClient platform (world p))
      as [[c|e] w1]; [|discriminate].
    destruct (initDB lv cfg c initialMemory) as [[e|] m1] eqn:B;
      [discriminate|].
    destruct (NewRegistryClient platform) as [cl|e]; [|discriminate].
    intros [= <- <- <- <-]. split; [reflexivity|]. split; [reflexivity|].
    destruct (initDB_complete lv cfg c initialMemory m1 wfMemory_initial B)
      as (imgs & views & Hlist & Hv & _ & Hs).
    exists c, w1, imgs, views. now repeat split.
  - intros config c w1 imgs views bad rest e Hcfg Hc Hlist Hv Hbad.
    unfold mainInit, bind, call, log_Fatal. rewrite Hcfg, Hc.
    destruct (initDB_formatPath lv config c initialMemory)
      as (path & Hp & Hrun).
    rewrite Hrun, (Hlist path Hp).
    destruct (initDBLoop_app lv imgs views initialMemory Hv wfMemory_initial)
      as (m1 & _ & _ & Happ).
    rewrite Happ, (initDBLoop_fails lv bad e rest m1 Hbad).
    cbn [world trace]. now rewrite <- app_assoc.
Qed.

Lemma mainInit_complete_index_or_exit_witness :
  mainInit PerIteration (Deployment.platform Scenario.clientInterrupted)
    initialMemory Scenario.start
  = Exit 1 {| world := tt;
              trace := [EvNewClient;
                        EvLog "failed to init db. error: rpc error: code = Unavailable"] |}.
Proof.
  apply (proj2 (mainInit_complete_index_or_exit unit PerIteration
                  (Deployment.platform Scenario.clientInterrupted)
                  Scenario.start)
           _ Scenario.clientInterrupted tt [Scenario.image]
           [ {| vName := "b"; vSHA := "sha256:1";
                vRawName := "a/b@sha256:1";
                vURI := "registry.example/a/b@sha256:1";
                vMediaType := "application/vnd.oci.image.manifest";
                vTags := ["v1"] |} ]
           (Err "rpc error: code = Unavailable") [Ok Scenario.twin]
           "rpc error: code = Unavailable"
           eq_refl eq_refl (fun _ _ => eq_refl) eq_refl (or_introl eq_refl)).
Defined.

(** ** Paths that contain [.ico] *)

Lemma HasPrefix_iff (s sub : string) :
  strings.HasPrefix s sub = true <-> exists post, s = (sub ++ post)%string.
Proof.
  revert s. induction sub as [|x sub IH]; intros s; simpl.
  - split; [intros _; now exists s|reflexivity].
  - destruct s as [|y s].
    + split; [discriminate|]. intros [post H]. discriminate.
    + rewrite andb_true_iff, Ascii.eqb_eq, IH. split.
      * intros [-> [post ->]]. now exists post.
      * intros [post H]. injection H as -> ->. split; [reflexivity|].
        now exists post.
Qed.

Lemma Contains_iff (s sub : string) :
  strings.Contains s sub = true <->
  exists pre post, s = (pre ++ sub ++ post)%string.
Proof.
  induction s as [|x s IH].
  - cbn [strings.Contains]. rewrite orb_false_r, HasPrefix_iff. split.
    + intros [post H]. now exists EmptyString, post.
    + intros (pre & post & H). destruct pre; [now exists post|discriminate].
  - cbn [strings.Contains]. rewrite orb_true_iff, HasPrefix_iff, IH. split.
    + intros [[post H]|(pre & post & H)].
      * now exists EmptyString, post.
      * exists (String x pre), post. simpl. now rewrite H.
    + intros (pre & post & H). destruct pre as [|y pre].
      * left. now exists post.
      * right. simpl in H. injection H as _ H. now exists pre, post.
Qed.

(** X15.  The metadata gateway answers 404 exactly for the paths that
    contain [.ico], wherever it stands in the path: such a path is never
    looked up, and the status of any other path is not 404. *)
Theorem getAssetsHandler_404_iff_contains_ico (World : Type)
    (backend : metadata.Backend World) (path : string) (p : Proc World) :
  let o := metadata.getAssetsHandler backend path http.newResponseWriter p in
  ((exists pre post, path = (pre ++ ".ico" ++ post)%string) <->
   option_map http.StatusCode (clientSees o) = Some 404) /\
  ((exists pre post, path = (pre ++ ".ico" ++ post)%string) ->
   finalProc o = p).
Proof.
  cbv zeta. rewrite <- Contains_iff. unfold metadata.getAssetsHandler.
  destruct (strings.Contains path ".ico") eqn:Hico.
  - split; [|reflexivity]. split; reflexivity.
  - split; [|discriminate]. split; [discriminate|].
    destruct (getImageMetadataReader_runs World backend path p)
      as (r & p' & evs & Hrun & _).
    unfold bind. rewrite Hrun.
    destruct r as [[|c content]|e]; discriminate.
Qed.

Lemma getAssetsHandler_404_iff_contains_ico_witness :
  option_map http.StatusCode
    (clientSees (metadata.getAssetsHandler Deployment.registry
                   "icons.icon@sha256:1" http.newResponseWriter
                   Scenario.start)) = Some 404.
Proof.
  apply (proj1 (proj1 (getAssetsHandler_404_iff_contains_ico unit
                         Deployment.registry "icons.icon@sha256:1"
                         Scenario.start))).
  exists "icons", "n@sha256:1". reflexivity.
Defined.

(** ** Listed tags *)

Lemma Forall2_In_l {A B} (R : A -> B -> Prop) (l : list A) (l' : list B)
    (a : A) :
  Forall2 R l l' -> In a l -> exists b, In b l' /\ R a b.
Proof.
  induction 1 as [|x y l l' Hxy _ IH]; intros Hin; [destruct Hin|].
  destruct Hin as [<-|Hin].
  - exists y. split; [now left|assumption].
  - destruct (IH Hin) as (b & Hb & Hr). exists b. split; [now right|assumption].
Qed.

Lemma matchesTagView_iff (assetName assetTag : string) (v : AssetView) :
  matchesTagView assetName assetTag v = true <->
  vName v = assetName /\ In assetTag (vTags v).
Proof.
  unfold matchesTagView.
  rewrite andb_true_iff, String.eqb_eq, existsb_exists. split.
  - intros [Hn (t & Hin & Ht)]. apply String.eqb_eq in Ht. subst t.
    now split.
  - intros [Hn Hin]. split; [assumption|]. exists assetTag.
    split; [assumption|apply String.eqb_refl].
Qed.

(** X16.  After a build that completes from the empty index, the tags of
    the listing resolve.  For every listed image whose resource name parses
    to a name and a digest, the request by that name and the last tag of
    the image finds an asset with that name which carries the tag; with a
    loop variable per iteration (Go 1.22 and later) this holds for every
    tag of the image. *)
Theorem listed_tags_resolve (lv : LoopVar) (config : Config)
    (client : ArtifactRegistryClient) (m' : Memory) (path : string)
    (img : pb.DockerImage) (name sha : string) :
  initDB lv config client initialMemory = (None, m') ->
  formatPath config = Ok path ->
  In (Ok img) (client path) ->
  extractNameAndSha (pb.Name img) = Ok (name, sha) ->
  forall t,
    (lv = PerIteration /\ In t (pb.Tags img)) \/
    (pb.Tags img <> [] /\ t = last (pb.Tags img) EmptyString) ->
    exists a,
      lookupByTag m' name t = Some a /\
      Name a = name /\ In t (tagsOf (heap m') a).
Proof.
  intros Hbuild Hpath Hin Hparse t Ht.
  destruct (initDB_complete lv config client initialMemory m'
              wfMemory_initial Hbuild)
    as (imgs & views & Hlist & Hv & _ & Hs).
  simpl in Hs. rewrite (Hlist path Hpath) in Hin.
  apply in_map_iff in Hin. destruct Hin as (img' & [= ->] & Hin).
  destruct (Forall2_In_l _ _ _ _ (assetOfImage_fields lv imgs views Hv) Hin)
    as (v & Hvin & Hp & _ & _ & _ & Htags).
  rewrite Hparse in Hp. injection Hp as Hn _.
  assert (Hrec : In t (vTags v)).
  { rewrite Htags. destruct Ht as [[-> Hti]|[Hne ->]]; [exact Hti|].
    destruct lv; simpl.
    - destruct (pb.Tags img) as [|t0 ts]; [contradiction|]. now left.
    - destruct (exists_last Hne) as (l & x & ->).
      rewrite last_last. apply in_or_app. right. now left. }
  pose proof (lookupByTag_snapshot m' name t) as Hsnap. rewrite Hs in Hsnap.
  destruct (find (matchesTagView name t) views) as [v0|] eqn:F.
  - destruct (lookupByTag m' name t) as [a|] eqn:L; [|discriminate].
    exists a. split; [reflexivity|].
    unfold lookupByTag in L. apply find_some in L. destruct L as [_ L].
    now apply matchesTag_iff in L.
  - exfalso. pose proof (find_none _ _ F v Hvin) as Hno.
    assert (matchesTagView name t v = true)
      by (apply matchesTagView_iff; now split).
    congruence.
Qed.

Lemma listed_tags_resolve_witness :
  exists a,
    lookupByTag (snd (initDB PerIteration Scenario.config
                        Scenario.clientTagged initialMemory)) "d" "v1"
    = Some a /\
    Name a = "d" /\
    In "v1" (tagsOf (heap (snd (initDB PerIteration Scenario.config
                                  Scenario.clientTagged initialMemory))) a).
Proof.
  apply (listed_tags_resolve PerIteration Scenario.config
           Scenario.clientTagged _
           "projects/p/locations/us-central1/repositories/r"
           Scenario.tagged "d" "sha256:2").
  - reflexivity.
  - reflexivity.
  - left. reflexivity.
  - reflexivity.
  - left. split; [reflexivity|]. left. reflexivity.
Defined.
